(** * The review-agent tools of [tools.ts]

    A shallow embedding of [generateCommitMessage], [writeMarkdownReview]
    and [getGitHistory], and the properties of the change-analysis and
    artifact-generation pipeline stated about them.

    JavaScript strings are sequences of UTF-16 code units ([list N]);
    numbers are integers ([Z]); the file system, the clock and the
    version-control client are fields of an explicit [World]; a rejected
    promise is the [Threw] outcome of the [IO] monad. *)

From Stdlib Require Import ZArith NArith DecimalString.
From stdpp Require Import gmap strings list.

Open Scope Z_scope.

(** ** JavaScript strings *)

(** A string is the list of its UTF-16 code units. *)
Abbreviation jsstring := (list N) (only parsing).

(** A file's contents are the list of its bytes. *)
Abbreviation bytes := (list N) (only parsing).

(** The code units of an ASCII literal of the source text. *)
Fixpoint js (s : string) : jsstring :=
  match s with
  | EmptyString => []
  | String a t => Ascii.N_of_ascii a :: js t
  end.

Definition LF : N := 10.
Definition CR : N := 13.
Definition LS : N := 8232.
Definition PS : N := 8233.
Definition PLUS : N := 43.
Definition MINUS : N := 45.
Definition COMMA : N := 44.
Definition PERIOD : N := 46.
Definition SLASH : N := 47.

Module JS.

(** [s.startsWith(p)] *)
Fixpoint startsWith (s p : jsstring) {struct p} : bool :=
  match p, s with
  | [], _ => true
  | _ :: _, [] => false
  | a :: p', b :: s' => (a =? b)%N && startsWith s' p'
  end.

(** [s.includes(p)] *)
Fixpoint includes (s p : jsstring) : bool :=
  startsWith s p ||
  match s with
  | [] => false
  | _ :: t => includes t p
  end.

(** [s.split(sep)] for a separator of one code unit: the result is
    never empty, and the empty string splits into one empty piece. *)
Fixpoint split (sep : N) (s : jsstring) : list jsstring :=
  match s with
  | [] => [[]]
  | c :: t =>
      if (c =? sep)%N then [] :: split sep t
      else match split sep t with
           | [] => [[c]]
           | piece :: rest => (c :: piece) :: rest
           end
  end.

(** [pieces.join(sep)] *)
Fixpoint join (sep : jsstring) (pieces : list jsstring) : jsstring :=
  match pieces with
  | [] => []
  | [piece] => piece
  | piece :: rest => piece ++ sep ++ join sep rest
  end.

(** [arr.pop()], as a value: the last element, [undefined] on []. *)
Definition pop {A} (arr : list A) : option A := last arr.

(** [arr[i]]: [undefined] out of range. *)
Definition index {A} (arr : list A) (i : nat) : option A := arr !! i.

(** [arr.length], [s.length] *)
Definition len {A} (arr : list A) : Z := Z.of_nat (length arr).

(** Truthiness of a [string | undefined]. *)
Definition truthy (v : option jsstring) : bool :=
  match v with
  | Some (_ :: _) => true
  | _ => false
  end.

(** A number in a template literal; the numbers printed here are
    integers. *)
Definition numberToString (n : Z) : jsstring :=
  js (NilZero.string_of_int (Z.to_int n)).

(** The characters after which [^] matches under the [m] flag. *)
Definition isLineTerminator (c : N) : bool :=
  (c =? LF)%N || (c =? CR)%N || (c =? LS)%N || (c =? PS)%N.

(** The matches of [/^c/gm] in [s], scanning from a position that is
    ([atStart = true]) or is not at the start of a line.  Every match
    is the one-character string [c]. *)
Fixpoint scanLineStart (c : N) (atStart : bool) (s : jsstring)
  : list jsstring :=
  match s with
  | [] => []
  | x :: t =>
      (if atStart && (x =? c)%N then [[c]] else [])
        ++ scanLineStart c (isLineTerminator x) t
  end.

(** [s.match(/^c/gm)]: [null] when nothing matches. *)
Definition matchLineStart (c : N) (s : jsstring) : option (list jsstring) :=
  match scanLineStart c true s with
  | [] => None
  | ms => Some ms
  end.

(** [m?.length || 0] *)
Definition lengthOrZero {A} (m : option (list A)) : Z :=
  match m with
  | None => 0
  | Some ms => if len ms =? 0 then 0 else len ms
  end.

End JS.

(** ** Outcomes of a call *)

(** What a [throw] carries: an [Error] with its message, or any other
    value. *)
Inductive Thrown :=
| ErrorObject (message : jsstring)
| OtherValue.

Inductive Outcome (A : Type) :=
| Returned (a : A)
| Threw (e : Thrown).
Arguments Returned {A} a.
Arguments Threw {A} e.

(** ** [generateCommitMessage] *)

Inductive CommitType := Feat | Fix | Docs | Style | Refactor | Test | Chore.

Definition typeName (t : CommitType) : jsstring :=
  match t with
  | Feat => js "feat"
  | Fix => js "fix"
  | Docs => js "docs"
  | Style => js "style"
  | Refactor => js "refactor"
  | Test => js "test"
  | Chore => js "chore"
  end.

Record Change := { file : jsstring; diff : jsstring }.

Record Stats := { addedLines : Z; removedLines : Z; filesChanged : Z }.

Record CommitMessageResult :=
  { message : jsstring; type : CommitType; stats : Stats }.

Definition hasNewFeatures (changes : list Change) : bool :=
  existsb
    (fun change =>
       JS.includes (diff change) (js "+ ") &&
       (JS.includes (diff change) (js "function") ||
        JS.includes (diff change) (js "class") ||
        JS.includes (diff change) (js "export")))
    changes.

Definition hasBugFixes (changes : list Change) : bool :=
  existsb
    (fun change =>
       JS.includes (diff change) (js "fix") ||
       JS.includes (diff change) (js "bug") ||
       JS.includes (diff change) (js "error"))
    changes.

Definition hasDocChanges (changes : list Change) : bool :=
  existsb
    (fun change =>
       JS.includes (file change) (js "README") ||
       JS.includes (file change) (js ".md") ||
       JS.includes (diff change) (js "@param") ||
       JS.includes (diff change) (js "@returns"))
    changes.

Definition hasTestChanges (changes : list Change) : bool :=
  existsb
    (fun change =>
       JS.includes (file change) (js "test") ||
       JS.includes (file change) (js "spec"))
    changes.

(** The value of [suggestedType] after the first [if] of the function:
    the caller's type when there is one (every name of the enumeration is
    a non-empty string, hence truthy), the heuristics otherwise. *)
Definition suggestedType (changes : list Change) (hint : option CommitType)
  : CommitType :=
  match hint with
  | Some t => t
  | None =>
      if hasNewFeatures changes then Feat
      else if hasBugFixes changes then Fix
      else if hasDocChanges changes then Docs
      else if hasTestChanges changes then Test
      else Chore
  end.

Definition fileNames (changes : list Change) : jsstring :=
  JS.join (js ", ") (map file changes).

Definition countAdded (changes : list Change) : Z :=
  fold_left
    (fun sum change =>
       sum + JS.lengthOrZero (JS.matchLineStart PLUS (diff change)))
    changes 0.

Definition countRemoved (changes : list Change) : Z :=
  fold_left
    (fun sum change =>
       sum + JS.lengthOrZero (JS.matchLineStart MINUS (diff change)))
    changes 0.

(** [changes[0].file]: reading a property of [undefined] throws. *)
Definition firstFile (changes : list Change) : Outcome jsstring :=
  match JS.index changes 0 with
  | Some change => Returned (file change)
  | None => Threw (ErrorObject (js "Cannot read properties of undefined"))
  end.

(** The [scope] constant: a string, or [undefined] when the optional
    chain stops. *)
Definition scopeOf (changes : list Change) : Outcome (option jsstring) :=
  if JS.len changes =? 1 then
    match firstFile changes with
    | Threw e => Threw e
    | Returned f =>
        Returned
          (match JS.pop (JS.split SLASH f) with
           | None => None
           | Some segment => JS.index (JS.split PERIOD segment) 0
           end)
    end
  else if JS.len changes >? 3 then Returned (Some (js "multiple"))
  else if JS.len (JS.split COMMA (fileNames changes)) >? 1
       then Returned (Some (js "files"))
  else Returned (Some []).

(** [${v}] of a [string | undefined] in a template literal. *)
Definition interpolate (v : option jsstring) : jsstring :=
  match v with
  | Some s => s
  | None => js "undefined"
  end.

Definition scopeText (scope : option jsstring) : jsstring :=
  if JS.truthy scope then js "(" ++ interpolate scope ++ js ")" else [].

Definition description (t : CommitType) : jsstring :=
  match t with
  | Feat => js "add new functionality"
  | Fix => js "resolve issues"
  | Docs => js "update documentation"
  | Refactor => js "improve code structure"
  | Test => js "add/update tests"
  | _ => js "update code"
  end.

(** The first line of the message. *)
Definition headerLine (t : CommitType) (scope : option jsstring) : jsstring :=
  typeName t ++ scopeText scope ++ js ": " ++ description t.

(** The three bullets that follow the blank line. *)
Definition bulletLines (changes : list Change) (added removed : Z)
  : jsstring :=
  js "- Modified " ++ JS.numberToString (JS.len changes) ++ js " file"
    ++ (if JS.len changes >? 1 then js "s" else []) ++ [LF]
    ++ js "- Added " ++ JS.numberToString added ++ js " lines, removed "
    ++ JS.numberToString removed ++ js " lines" ++ [LF]
    ++ js "- Files: " ++ fileNames changes.

Definition generateCommitMessage (changes : list Change)
    (hint : option CommitType) : Outcome CommitMessageResult :=
  let suggested := suggestedType changes hint in
  let added := countAdded changes in
  let removed := countRemoved changes in
  match scopeOf changes with
  | Threw e => Threw e
  | Returned scope =>
      Returned
        {| message :=
             headerLine suggested scope ++ [LF; LF]
               ++ bulletLines changes added removed;
           type := suggested;
           stats := {| addedLines := added;
                       removedLines := removed;
                       filesChanged := JS.len changes |} |}
  end.


(** ** The platform: UTF-8, the file system, the clock, the VCS client *)

Module UTF8.

Definition isHighSurrogate (c : N) : bool :=
  (55296 <=? c)%N && (c <=? 56319)%N.

Definition isLowSurrogate (c : N) : bool :=
  (56320 <=? c)%N && (c <=? 57343)%N.

Definition encodeCodePoint (cp : N) : bytes :=
  if (cp <? 128)%N then [cp]
  else if (cp <? 2048)%N then
    [N.lor 192 (N.shiftr cp 6); N.lor 128 (N.land cp 63)]
  else if (cp <? 65536)%N then
    [N.lor 224 (N.shiftr cp 12);
     N.lor 128 (N.land (N.shiftr cp 6) 63);
     N.lor 128 (N.land cp 63)]
  else
    [N.lor 240 (N.shiftr cp 18);
     N.lor 128 (N.land (N.shiftr cp 12) 63);
     N.lor 128 (N.land (N.shiftr cp 6) 63);
     N.lor 128 (N.land cp 63)].

(** U+FFFD, written in place of a surrogate that has no partner. *)
Definition replacement : bytes := [239; 191; 189]%N.

Definition codePointOfPair (hi lo : N) : N :=
  (65536 + N.shiftl (hi - 55296) 10 + (lo - 56320))%N.

(** The bytes written for a string under the [utf8] encoding. *)
Fixpoint encode (s : jsstring) : bytes :=
  match s with
  | [] => []
  | c :: t =>
      if isHighSurrogate c then
        match t with
        | d :: t' =>
            if isLowSurrogate d
            then encodeCodePoint (codePointOfPair c d) ++ encode t'
            else replacement ++ encode t
        | [] => replacement
        end
      else if isLowSurrogate c then replacement ++ encode t
      else encodeCodePoint c ++ encode t
  end.

End UTF8.

Module Log.
(** One line of [log.all], as the VCS client reports it. *)
Record entry := {
  hash : jsstring;
  date : jsstring;
  message : jsstring;
  refs : jsstring;
  body : jsstring;
  author_name : jsstring;
  author_email : jsstring
}.
End Log.

(** The world the tools run in.  The faults are the part of the
    environment that decides whether an operation fails, and with what. *)
Record World := {
  files : gmap (list N) (list N);
  directories : gset (list N);
  clock : jsstring;
  mkdirFault : jsstring -> option Thrown;
  writeFault : jsstring -> bytes -> option Thrown;
  gitOpenFault : jsstring -> option Thrown;
  gitLog : jsstring -> Z -> Outcome (list Log.entry)
}.

Definition IO (A : Type) : Type := World -> Outcome A * World.

Definition ret {A} (a : A) : IO A := fun w => (Returned a, w).

Definition bind {A B} (m : IO A) (k : A -> IO B) : IO B :=
  fun w =>
    match m w with
    | (Returned a, w') => k a w'
    | (Threw e, w') => (Threw e, w')
    end.

Notation "'let*' x := m 'in' k" := (bind m (fun x => k))
  (at level 10, x name, m at level 100, k at level 200).

(** [try { body } catch (error) { handler }] *)
Definition tryCatch {A} (body : IO A) (handler : Thrown -> IO A) : IO A :=
  fun w =>
    match body w with
    | (Returned a, w') => (Returned a, w')
    | (Threw e, w') => handler e w'
    end.

(** [mkdir(dir, { recursive: true })] *)
Definition mkdir (dir : jsstring) : IO unit :=
  fun w =>
    match mkdirFault w dir with
    | Some e => (Threw e, w)
    | None =>
        (Returned tt,
         {| files := files w;
            directories := {[dir]} ∪ directories w;
            clock := clock w;
            mkdirFault := mkdirFault w;
            writeFault := writeFault w;
            gitOpenFault := gitOpenFault w;
            gitLog := gitLog w |})
    end.

(** [writeFile(path, data, "utf8")]: the file's whole contents become
    the encoding of [data]. *)
Definition writeFile (path data : jsstring) : IO unit :=
  fun w =>
    match writeFault w path (UTF8.encode data) with
    | Some e => (Threw e, w)
    | None =>
        (Returned tt,
         {| files := <[path := UTF8.encode data]> (files w);
            directories := directories w;
            clock := clock w;
            mkdirFault := mkdirFault w;
            writeFault := writeFault w;
            gitOpenFault := gitOpenFault w;
            gitLog := gitLog w |})
    end.

(** Reading a file back. *)
Definition readFile (path : jsstring) (w : World) : option bytes :=
  files w !! path.

(** [new Date().toISOString()] *)
Definition toISOStringNow : IO jsstring :=
  fun w => (Returned (clock w), w).

(** [simpleGit(rootDir)]: the client for a directory, named by it. *)
Definition simpleGit (rootDir : jsstring) : IO jsstring :=
  fun w =>
    match gitOpenFault w rootDir with
    | Some e => (Threw e, w)
    | None => (Returned rootDir, w)
    end.

(** [(await git.log({ maxCount })).all] *)
Definition logAll (git : jsstring) (maxCount : Z) : IO (list Log.entry) :=
  fun w => (gitLog w git maxCount, w).

(** ** [writeMarkdownReview] *)

Inductive WriteResult :=
| WriteSucceeded (filePath : jsstring) (size : Z) (message : jsstring)
| WriteFailed (filePath : jsstring) (error : jsstring).

Section Tools.

(** [dirname] of the platform's [path] module. *)
Variable dirname : jsstring -> jsstring.

Definition writeMarkdownReview (filePath content : jsstring)
    (title : option jsstring) : IO WriteResult :=
  tryCatch
    (let dir := dirname filePath in
     let* _ := mkdir dir in
     let markdownContent :=
       if JS.truthy title
       then js "# " ++ interpolate title ++ [LF; LF] ++ content
       else content in
     let* timestamp := toISOStringNow in
     let fullContent :=
       js "---" ++ [LF]
         ++ js "generated: " ++ timestamp ++ [LF]
         ++ js "type: code-review" ++ [LF]
         ++ js "---" ++ [LF]
         ++ [LF]
         ++ markdownContent ++ [LF] in
     let* _ := writeFile filePath fullContent in
     ret (WriteSucceeded filePath (JS.len fullContent)
            (js "Successfully wrote "
               ++ JS.numberToString (JS.len fullContent)
               ++ js " characters to " ++ filePath)))
    (fun error =>
       ret (WriteFailed filePath
              (match error with
               | ErrorObject message => message
               | OtherValue => js "Unknown error occurred"
               end))).

End Tools.

(** ** [getGitHistory] *)

Module History.
Record commit := {
  hash : jsstring;
  date : jsstring;
  message : jsstring;
  author : jsstring;
  email : jsstring
}.

(** The returned object; [error = None] when it has no [error] field. *)
Record result := { commits : list commit; error : option jsstring }.
End History.

Definition getGitHistory (rootDir : jsstring) (maxCount : Z)
  : IO History.result :=
  tryCatch
    (let* git := simpleGit rootDir in
     let* all := logAll git maxCount in
     ret {| History.commits :=
              map (fun commit =>
                     {| History.hash := Log.hash commit;
                        History.date := Log.date commit;
                        History.message := Log.message commit;
                        History.author := Log.author_name commit;
                        History.email := Log.author_email commit |})
                  all;
            History.error := None |})
    (fun error =>
       ret {| History.commits := [];
              History.error :=
                Some (match error with
                      | ErrorObject message => message
                      | OtherValue => js "Failed to get git history"
                      end) |}).

(** ** Reference notions used by the statements *)

(** The lines of a text: the pieces between line terminators. *)
Fixpoint linesOf (s : jsstring) : list jsstring :=
  match s with
  | [] => [[]]
  | c :: t =>
      if JS.isLineTerminator c then [] :: linesOf t
      else match linesOf t with
           | [] => [[c]]
           | line :: rest => (c :: line) :: rest
           end
  end.

(** A line that begins with the marker [c]. *)
Definition beginsWith (c : N) (line : jsstring) : bool :=
  match line with
  | x :: _ => (x =? c)%N
  | [] => false
  end.

(** A line that begins with exactly one marker [c]: a header line, which
    begins with two or more, does not qualify. *)
Definition beginsWithSingle (c : N) (line : jsstring) : bool :=
  match line with
  | x :: y :: _ => (x =? c)%N && negb (y =? c)%N
  | [x] => (x =? c)%N
  | [] => false
  end.

(** How many lines of all the diffs satisfy [p]. *)
Definition countLines (p : jsstring -> bool) (changes : list Change) : Z :=
  fold_right
    (fun change total =>
       JS.len (List.filter p (linesOf (diff change))) + total)
    0 changes.

(** *** The reference notions of a path's base name *)

(** [seg] is the final segment of [path]: what follows the last slash. *)
Definition finalSegment (path seg : jsstring) : Prop :=
  exists dirPart,
    path = dirPart ++ seg
    /\ (dirPart = [] \/ last dirPart = Some SLASH)
    /\ (SLASH ∉ seg).

(** [stem] is the part of [seg] before its first period. *)
Definition beforeFirstPeriod (seg stem : jsstring) : Prop :=
  exists rest,
    seg = stem ++ rest
    /\ (PERIOD ∉ stem)
    /\ (rest = [] \/ head rest = Some PERIOD).

(** The base name of [path] with its extension stripped. *)
Definition baseNameStem (path stem : jsstring) : Prop :=
  exists seg, finalSegment path seg /\ beforeFirstPeriod seg stem.

(** The reference header: the parenthetical segment is left out when the
    scope is empty. *)
Definition headerBySpec (t : CommitType) (scope : jsstring) : jsstring :=
  match scope with
  | [] => typeName t ++ js ": " ++ description t
  | _ :: _ => typeName t ++ js "(" ++ scope ++ js ")" ++ js ": " ++ description t
  end.

Definition headerDiffExample : list Change :=
  [ {| file := js "a.ts";
       diff := js "--- a/a.ts" ++ [LF] ++ js "+++ b/a.ts" ++ [LF]
                 ++ js "-x" ++ [LF] ++ js "+y" |} ].

(** *** The reference classifier *)

(** The heuristics as an ordered list of predicate and category pairs. *)
Definition priorityChain : list ((list Change -> bool) * CommitType) :=
  [ (hasNewFeatures, Feat);
    (hasBugFixes, Fix);
    (hasDocChanges, Docs);
    (hasTestChanges, Test) ].

(** The hint when there is one; otherwise the category of the first
    predicate of the chain that matches, [Chore] when none does. *)
Definition classifyReference (changes : list Change)
    (hint : option CommitType) : CommitType :=
  match hint with
  | Some category => category
  | None =>
      match List.find (fun rule => fst rule changes) priorityChain with
      | Some rule => snd rule
      | None => Chore
      end
  end.

Definition priorityScenario (d1 d2 : jsstring) : list Change :=
  [ {| file := js "a.test.ts"; diff := d1 |};
    {| file := js "b.ts"; diff := d2 |} ].

(** [text] occurs somewhere in [s]. *)
Definition containsText (s text : jsstring) : Prop :=
  exists before after, s = before ++ text ++ after.

(** A text that mentions a function, class or export keyword. *)
Definition mentionsDeclaration (text : jsstring) : bool :=
  JS.includes text (js "function")
  || JS.includes text (js "class")
  || JS.includes text (js "export").

(** A diff with an added line whose content mentions such a keyword. *)
Definition hasAddedDeclarationLine (d : jsstring) : bool :=
  existsb (fun line => beginsWith PLUS line && mentionsDeclaration line)
    (linesOf d).

(** The [feat] predicate in the words of the specification. *)
Definition featBySpec (changes : list Change) : bool :=
  existsb (fun change => hasAddedDeclarationLine (diff change)) changes.

Definition keywordOnRemovedLine : list Change :=
  [ {| file := js "a.ts";
       diff := js "+ x" ++ [LF] ++ js "-function f() {}" |} ].

Definition addedLineWithoutSpace : list Change :=
  [ {| file := js "a.ts"; diff := js "+function f() {}" |} ].

(** *** The reference scope *)

(** How many distinct file names the change set has. *)
Definition distinctNames (changes : list Change) : Z :=
  JS.len (remove_dups (map file changes)).

Definition scopeBySpec (changes : list Change) (scope : jsstring) : Prop :=
  match changes with
  | [change] => baseNameStem (file change) scope
  | _ =>
      if JS.len changes >? 3 then scope = js "multiple"
      else if distinctNames changes >? 1 then scope = js "files"
      else scope = []
  end.

Definition twoFiles : list Change :=
  [ {| file := js "src/auth.ts"; diff := js "+a" |};
    {| file := js "src/login.ts"; diff := js "-b" |} ].

Definition envFile : Change :=
  {| file := js "src/.env"; diff := js "+KEY=1" |}.

(** *** The reference shape of a review artifact *)

(** The metadata block with its closing blank line. *)
Definition metadataHeader (timestamp : jsstring) : jsstring :=
  js "---" ++ [LF]
    ++ js "generated: " ++ timestamp ++ [LF]
    ++ js "type: code-review" ++ [LF]
    ++ js "---" ++ [LF]
    ++ [LF].

(** The level-1 heading and its blank line; nothing without a title. *)
Definition titleHeading (title : option jsstring) : jsstring :=
  match title with
  | Some (c :: t) => js "# " ++ (c :: t) ++ [LF; LF]
  | _ => []
  end.

(** Header block, optional heading, content, terminating newline. *)
Definition fullText (timestamp : jsstring) (title : option jsstring)
    (content : jsstring) : jsstring :=
  metadataHeader timestamp ++ titleHeading title ++ content ++ [LF].

(** [s] without its prefix [p], when it has that prefix. *)
Fixpoint stripPrefix (p s : bytes) : option bytes :=
  match p, s with
  | [], _ => Some s
  | _ :: _, [] => None
  | a :: p', b :: s' => if (a =? b)%N then stripPrefix p' s' else None
  end.

(** The body of an artifact read back as bytes: what is left after the
    metadata header and the title heading. *)
Definition bodyOf (timestamp : jsstring) (title : option jsstring)
    (fileBytes : bytes) : option bytes :=
  stripPrefix (UTF8.encode (metadataHeader timestamp ++ titleHeading title))
    fileBytes.

(** A high surrogate at the end of [a] meets a low one at the start of
    [b]. *)
Definition splitsPair (a b : jsstring) : bool :=
  match last a, head b with
  | Some hi, Some lo => UTF8.isHighSurrogate hi && UTF8.isLowSurrogate lo
  | _, _ => false
  end.

(** The message of the [catch] block of [writeMarkdownReview]. *)
Definition writeErrorText (e : Thrown) : jsstring :=
  match e with
  | ErrorObject message => message
  | OtherValue => js "Unknown error occurred"
  end.

(** The message of the [catch] block of [getGitHistory]. *)
Definition historyErrorText (e : Thrown) : jsstring :=
  match e with
  | ErrorObject message => message
  | OtherValue => js "Failed to get git history"
  end.

(** The commit record made of a log line. *)
Definition toCommit (entry : Log.entry) : History.commit :=
  {| History.hash := Log.hash entry;
     History.date := Log.date entry;
     History.message := Log.message entry;
     History.author := Log.author_name entry;
     History.email := Log.author_email entry |}.

(** A world with an empty file system in which nothing fails. *)
Definition quietWorld : World :=
  {| files := ∅;
     directories := ∅;
     clock := js "2024-01-01T12:00:00.000Z";
     mkdirFault := fun _ => None;
     writeFault := fun _ _ => None;
     gitOpenFault := fun _ => None;
     gitLog := fun _ _ => Returned [] |}.

Definition reviewsDir : jsstring -> jsstring := fun _ => js "reviews".

Definition reviewPath : jsstring := js "reviews/r.md".

(** The one-character content [é], U+00E9. *)
Definition accentedContent : jsstring := [233%N].

Definition loginChange : Change :=
  {| file := js "auth.ts"; diff := js "+ export function login() {}" |}.

Definition fourFiles : list Change :=
  [ {| file := js "a.ts"; diff := [] |};
    {| file := js "b.ts"; diff := [] |};
    {| file := js "c.ts"; diff := [] |};
    {| file := js "d.ts"; diff := [] |} ].

(** ** [getFileChangesInDirectory] *)

Definition excludeFiles : list jsstring := [js "dist"; js "bun.lock"].

(** [arr.includes(x)] on an array of strings. *)
Definition arrayIncludes (arr : list jsstring) (x : jsstring) : bool :=
  existsb (fun y => bool_decide (y = x)) arr.

Module Summary.
(** One element of [summary.files]. *)
Record entry := {
  file : jsstring;
  changes : Z;
  insertions : Z;
  deletions : Z;
  binary : bool
}.
End Summary.

(** An operation that reads the world and leaves it as it is. *)
Definition readOnly {A} (f : World -> Outcome A) : IO A :=
  fun w => (f w, w).

Section DiffCollector.

(** [(await git.diffSummary()).files] of the client of a directory. *)
Variable diffSummary : jsstring -> World -> Outcome (list Summary.entry).

(** [await git.diff(["--", file])] of the client of a directory. *)
Variable gitDiff : jsstring -> jsstring -> World -> Outcome jsstring.

(** The [for] loop, with the array [diffs] built so far. *)
Fixpoint collectDiffs (git : jsstring) (files : list Summary.entry)
    (diffs : list Change) : IO (list Change) :=
  match files with
  | [] => ret diffs
  | entry :: rest =>
      if arrayIncludes excludeFiles (Summary.file entry)
      then collectDiffs git rest diffs
      else
        let* d := readOnly (gitDiff git (Summary.file entry)) in
        collectDiffs git rest
          (diffs ++ [ {| file := Summary.file entry; diff := d |} ])
  end.

Definition getFileChangesInDirectory (rootDir : jsstring)
  : IO (list Change) :=
  let* git := simpleGit rootDir in
  let* summaryFiles := readOnly (diffSummary git) in
  collectDiffs git summaryFiles [].

End DiffCollector.

(** *** Reference notions for the collector *)

(** The paths of a summary that are neither [dist] nor [bun.lock], in
    the order of the summary. *)
Definition keptPaths (files : list Summary.entry) : list jsstring :=
  filter (fun p => p <> js "dist" /\ p <> js "bun.lock")
    (map Summary.file files).

(** [change] is the path [p] with the diff the client gives for it. *)
Definition diffedAs (gitDiff : jsstring -> jsstring -> World -> Outcome jsstring)
    (git : jsstring) (w : World) (p : jsstring) (change : Change) : Prop :=
  file change = p /\ gitDiff git p w = Returned (diff change).

Definition summaryEntry (p : jsstring) : Summary.entry :=
  {| Summary.file := p;
     Summary.changes := 1;
     Summary.insertions := 1;
     Summary.deletions := 0;
     Summary.binary := false |}.

(** A working tree with a build output, a lock file and two sources. *)
Definition sampleSummary : jsstring -> World -> Outcome (list Summary.entry) :=
  fun _ _ =>
    Returned [ summaryEntry (js "dist");
               summaryEntry (js "src/a.ts");
               summaryEntry (js "bun.lock");
               summaryEntry (js "dist/index.js") ].

Definition sampleDiff : jsstring -> jsstring -> World -> Outcome jsstring :=
  fun _ p _ => Returned (js "+++ b/" ++ p).

(** A client whose diff of the lock file fails. *)
Definition lockFailingDiff
  : jsstring -> jsstring -> World -> Outcome jsstring :=
  fun _ p _ =>
    if bool_decide (p = js "bun.lock")
    then Threw (ErrorObject (js "unreadable"))
    else Returned (js "+++ b/" ++ p).

(** A world in which no repository can be opened. *)
Definition noRepositoryWorld : World :=
  {| files := ∅;
     directories := ∅;
     clock := js "2024-01-01T12:00:00.000Z";
     mkdirFault := fun _ => None;
     writeFault := fun _ _ => None;
     gitOpenFault := fun _ => Some (ErrorObject (js "not a git repository"));
     gitLog := fun _ _ => Returned [] |}.

(** *** Reference notions for the heuristics and the statistics *)

(** The priority of a category among the heuristics. *)
Definition rank (t : CommitType) : nat :=
  match t with
  | Feat => 4
  | Fix => 3
  | Docs => 2
  | Test => 1
  | _ => 0
  end.

(** The category of higher priority, the first on a tie. *)
Definition higher (a b : CommitType) : CommitType :=
  if (rank a <? rank b)%nat then b else a.

(** Some diff of the change set contains [text]. *)
Definition someDiffContains (changes : list Change) (text : jsstring)
  : Prop :=
  exists change, change ∈ changes /\ containsText (diff change) text.

(** Some path of the change set contains [text]. *)
Definition somePathContains (changes : list Change) (text : jsstring)
  : Prop :=
  exists change, change ∈ changes /\ containsText (file change) text.

Definition featSigns (changes : list Change) : Prop :=
  exists change,
    change ∈ changes
    /\ containsText (diff change) (js "+ ")
    /\ (containsText (diff change) (js "function")
        \/ containsText (diff change) (js "class")
        \/ containsText (diff change) (js "export")).

Definition bugFixSigns (changes : list Change) : Prop :=
  someDiffContains changes (js "fix")
  \/ someDiffContains changes (js "bug")
  \/ someDiffContains changes (js "error").

Definition docSigns (changes : list Change) : Prop :=
  somePathContains changes (js "README")
  \/ somePathContains changes (js ".md")
  \/ someDiffContains changes (js "@param")
  \/ someDiffContains changes (js "@returns").

Definition testSigns (changes : list Change) : Prop :=
  somePathContains changes (js "test")
  \/ somePathContains changes (js "spec").

(** The number of lines of all the diffs. *)
Definition lineCount (changes : list Change) : Z :=
  fold_right
    (fun change total => JS.len (linesOf (diff change)) + total)
    0 changes.

Definition samePathTwice : list Change :=
  [ {| file := js "a.ts"; diff := js "+a" |};
    {| file := js "a.ts"; diff := js "-b" |} ].

Definition docsThenFix : list Change * list Change :=
  ( [ {| file := js "README.md"; diff := js "+hello" |} ],
    [ {| file := js "b.ts"; diff := js "-bug" |} ] ).

(** The length the title heading adds to the text. *)
Definition headingLength (title : option jsstring) : Z :=
  match title with
  | Some (c :: t) => JS.len (c :: t) + 4
  | _ => 0
  end.


(** ** The model at work *)

Example login_scenario :
  generateCommitMessage [loginChange] None
  = Returned
      {| message :=
           js "feat(auth): add new functionality" ++ [LF; LF]
             ++ js "- Modified 1 file" ++ [LF]
             ++ js "- Added 1 lines, removed 0 lines" ++ [LF]
             ++ js "- Files: auth.ts";
         type := Feat;
         stats := {| addedLines := 1; removedLines := 0; filesChanged := 1 |}
      |}.
Proof. reflexivity. Qed.

Example scope_of_nested_path :
  scopeOf [ {| file := js "src/auth.service.ts"; diff := [] |} ]
  = Returned (Some (js "auth")).
Proof. reflexivity. Qed.

Example scope_of_four_files :
  scopeOf fourFiles = Returned (Some (js "multiple")).
Proof. reflexivity. Qed.

Example scope_of_two_files :
  scopeOf twoFiles = Returned (Some (js "files")).
Proof. reflexivity. Qed.

Example split_trailing_separator :
  JS.split SLASH (js "a/b/") = [js "a"; js "b"; []].
Proof. reflexivity. Qed.

Example line_starts_after_any_terminator :
  JS.scanLineStart PLUS true
    (js "+a" ++ [CR; LF] ++ js "+b +c" ++ [LS] ++ js "+d")
  = [[PLUS]; [PLUS]; [PLUS]].
Proof. reflexivity. Qed.

Example encode_surrogate_pair :
  UTF8.encode [55357; 56832]%N = [240; 159; 152; 128]%N.
Proof. reflexivity. Qed.

Example encode_lone_surrogate :
  UTF8.encode [55357; 97]%N = [239; 191; 189; 97]%N.
Proof. reflexivity. Qed.

(** ** Facts about the string operations *)

Lemma startsWith_spec (s p : jsstring) :
  JS.startsWith s p = true <-> exists b, s = p ++ b.
Proof.
  revert s. induction p as [|a p IH]; intros s; simpl.
  - split; eauto.
  - destruct s as [|b s].
    + split; [discriminate | intros [? ?]; discriminate].
    + rewrite andb_true_iff, N.eqb_eq, IH. split.
      * intros [-> [r ->]]. eauto.
      * intros [r H]. injection H as -> ->. eauto.
Qed.

Lemma includes_spec (s p : jsstring) :
  JS.includes s p = true <-> exists a b, s = a ++ p ++ b.
Proof.
  induction s as [|c t IH]; simpl; rewrite orb_true_iff, startsWith_spec.
  - split.
    + intros [[b H] | H]; [|discriminate]. exists [], b. exact H.
    + intros [a [b H]]. left. destruct a; [eauto | discriminate].
  - rewrite IH. split.
    + intros [[b H] | [a [b H]]].
      * exists [], b. exact H.
      * exists (c :: a), b. simpl. congruence.
    + intros [[|c' a] [b H]]; simpl in H.
      * left. eauto.
      * right. injection H as -> ->. eauto.
Qed.

Lemma includes_app (a p b : jsstring) : JS.includes (a ++ p ++ b) p = true.
Proof. apply includes_spec. eauto. Qed.

Lemma linesOf_nonempty (s : jsstring) : linesOf s <> [].
Proof.
  destruct s as [|c t]; simpl; [discriminate|].
  destruct (JS.isLineTerminator c); [discriminate|].
  destruct (linesOf t); discriminate.
Qed.

(** Scanning from inside a line finds the marker lines after the first;
    scanning from a line start finds all of them. *)
Lemma scanLineStart_lines (c : N) (s : jsstring) :
  JS.isLineTerminator c = false ->
  length (JS.scanLineStart c true s)
    = length (List.filter (beginsWith c) (linesOf s))
  /\ length (JS.scanLineStart c false s)
    = length (List.filter (beginsWith c) (tail (linesOf s))).
Proof.
  intros Hc. induction s as [|x t [IHt IHf]]; simpl; [auto|].
  destruct (JS.isLineTerminator x) eqn:Hx; simpl.
  - assert ((x =? c)%N = false) as ->.
    { apply N.eqb_neq. intros ->. congruence. }
    simpl. auto.
  - pose proof (linesOf_nonempty t) as Hne.
    destruct (linesOf t) as [|line rest]; [done|]. simpl in *.
    destruct (x =? c)%N; simpl; rewrite IHf; auto.
Qed.

Lemma lengthOrZero_matchLineStart (c : N) (s : jsstring) :
  JS.lengthOrZero (JS.matchLineStart c s)
    = JS.len (JS.scanLineStart c true s).
Proof.
  unfold JS.matchLineStart, JS.lengthOrZero.
  destruct (JS.scanLineStart c true s) as [|m ms]; [reflexivity|].
  destruct (JS.len (m :: ms) =? 0) eqn:E; [|reflexivity].
  apply Z.eqb_eq in E. symmetry. exact E.
Qed.

Lemma fold_left_sum (f : Change -> Z) (changes : list Change) (acc : Z) :
  fold_left (fun sum change => sum + f change) changes acc
    = acc + fold_right (fun change total => f change + total) 0 changes.
Proof.
  revert acc. induction changes as [|ch rest IH]; intros acc; simpl.
  - lia.
  - rewrite IH. lia.
Qed.

Lemma countAdded_lines (changes : list Change) :
  countAdded changes = countLines (beginsWith PLUS) changes.
Proof.
  unfold countAdded, countLines. rewrite fold_left_sum, Z.add_0_l.
  induction changes as [|ch rest IH]; simpl; [reflexivity|].
  rewrite IH, lengthOrZero_matchLineStart. unfold JS.len.
  rewrite (proj1 (scanLineStart_lines PLUS (diff ch) eq_refl)). reflexivity.
Qed.

Lemma countRemoved_lines (changes : list Change) :
  countRemoved changes = countLines (beginsWith MINUS) changes.
Proof.
  unfold countRemoved, countLines. rewrite fold_left_sum, Z.add_0_l.
  induction changes as [|ch rest IH]; simpl; [reflexivity|].
  rewrite IH, lengthOrZero_matchLineStart. unfold JS.len.
  rewrite (proj1 (scanLineStart_lines MINUS (diff ch) eq_refl)). reflexivity.
Qed.

Lemma countLines_nonneg (p : jsstring -> bool) (changes : list Change) :
  0 <= countLines p changes.
Proof.
  induction changes as [|ch rest IH]; simpl; [lia|]. unfold JS.len. lia.
Qed.

(** *** [split] and [join] *)

Lemma split_nonempty (sep : N) (s : jsstring) : JS.split sep s <> [].
Proof.
  destruct s as [|c t]; simpl; [discriminate|].
  destruct (c =? sep)%N; [discriminate|].
  destruct (JS.split sep t); discriminate.
Qed.

Lemma join_split (sep : N) (s : jsstring) :
  JS.join [sep] (JS.split sep s) = s.
Proof.
  induction s as [|c t IH]; simpl; [reflexivity|].
  pose proof (split_nonempty sep t) as Hne.
  destruct (c =? sep)%N eqn:E.
  - apply N.eqb_eq in E as ->.
    destruct (JS.split sep t) as [|p r]; [done|].
    simpl in *. rewrite IH. reflexivity.
  - destruct (JS.split sep t) as [|p r]; [done|].
    destruct r; simpl in *; rewrite <- IH; reflexivity.
Qed.

Lemma split_pieces (sep : N) (s : jsstring) :
  Forall (fun piece => sep ∉ piece) (JS.split sep s).
Proof.
  induction s as [|c t IH]; simpl.
  - repeat constructor. apply not_elem_of_nil.
  - destruct (c =? sep)%N eqn:E.
    + constructor; [apply not_elem_of_nil | exact IH].
    + apply N.eqb_neq in E.
      destruct (JS.split sep t) as [|p r]; simpl.
      * repeat constructor. rewrite list_elem_of_singleton. congruence.
      * inversion IH as [|? ? Hp Hr]; subst. constructor; [|exact Hr].
        rewrite elem_of_cons. intros [He | Hin]; [congruence | done].
Qed.

Lemma split_without (sep : N) (s : jsstring) :
  sep ∉ s -> JS.split sep s = [s].
Proof.
  induction s as [|c t IH]; simpl; [reflexivity|].
  rewrite not_elem_of_cons. intros [Hne Hnin].
  destruct (c =? sep)%N eqn:E; [apply N.eqb_eq in E; congruence|].
  rewrite IH by exact Hnin. reflexivity.
Qed.

Lemma split_app_sep (sep : N) (a b : jsstring) :
  JS.split sep (a ++ sep :: b) = JS.split sep a ++ JS.split sep b.
Proof.
  induction a as [|c t IH]; simpl.
  - rewrite N.eqb_refl. reflexivity.
  - destruct (c =? sep)%N; [rewrite IH; reflexivity|].
    rewrite IH. pose proof (split_nonempty sep t) as Hne.
    destruct (JS.split sep t); [done | reflexivity].
Qed.

Lemma join_cons (sep : jsstring) (p : jsstring) (rest : list jsstring) :
  JS.join sep (p :: rest) = p ++ concat (map (fun q => sep ++ q) rest).
Proof.
  revert p. induction rest as [|q rest IH]; intros p.
  - simpl. rewrite app_nil_r. reflexivity.
  - change (JS.join sep (p :: q :: rest))
      with (p ++ sep ++ JS.join sep (q :: rest)).
    rewrite IH. simpl. rewrite <- app_assoc. reflexivity.
Qed.

Lemma join_snoc (sep : jsstring) (init : list jsstring) (p : jsstring) :
  JS.join sep (init ++ [p]) = concat (map (fun q => q ++ sep) init) ++ p.
Proof.
  induction init as [|q init IH]; simpl; [reflexivity|].
  rewrite <- app_assoc, <- IH.
  destruct init; simpl; rewrite <- ?app_assoc; reflexivity.
Qed.

Lemma last_concat_sep (sep : N) (init : list jsstring) :
  init <> [] -> last (concat (map (fun q => q ++ [sep]) init)) = Some sep.
Proof.
  induction init as [|q init IH] using rev_ind; [done|]. intros _.
  rewrite map_app, concat_app. simpl. rewrite app_nil_r, app_assoc.
  apply last_snoc.
Qed.

(** The last piece of a split is the part after the last separator. *)
Lemma split_last_iff (sep : N) (s seg : jsstring) :
  last (JS.split sep s) = Some seg
  <-> exists pre,
        s = pre ++ seg /\ (pre = [] \/ last pre = Some sep) /\ (sep ∉ seg).
Proof.
  split.
  - intros Hlast. apply last_Some in Hlast as [init Hsplit].
    pose proof (join_split sep s) as Hjoin.
    pose proof (split_pieces sep s) as Hpieces.
    rewrite Hsplit in Hjoin, Hpieces. rewrite join_snoc in Hjoin.
    exists (concat (map (fun q => q ++ [sep]) init)).
    split; [symmetry; exact Hjoin|]. split.
    + destruct init as [|q init]; [left; reflexivity|].
      right. apply last_concat_sep. discriminate.
    + apply Forall_app in Hpieces as [_ Hseg].
      inversion Hseg; assumption.
  - intros [pre [-> [[-> | Hpre] Hseg]]].
    + simpl. rewrite split_without by exact Hseg. reflexivity.
    + apply last_Some in Hpre as [pre' ->].
      rewrite <- app_assoc. simpl. rewrite split_app_sep.
      rewrite (split_without sep seg) by exact Hseg. apply last_snoc.
Qed.

(** The first piece of a split is the part before the first separator. *)
Lemma split_first_iff (sep : N) (s stem : jsstring) :
  JS.split sep s !! 0%nat = Some stem
  <-> exists rest,
        s = stem ++ rest /\ (sep ∉ stem) /\ (rest = [] \/ head rest = Some sep).
Proof.
  split.
  - intros Hfirst.
    pose proof (join_split sep s) as Hjoin.
    pose proof (split_pieces sep s) as Hpieces.
    destruct (JS.split sep s) as [|p others]; [discriminate|].
    simpl in Hfirst. injection Hfirst as ->.
    rewrite join_cons in Hjoin.
    exists (concat (map (fun q => [sep] ++ q) others)).
    split; [symmetry; exact Hjoin|]. split.
    + inversion Hpieces; assumption.
    + destruct others; [left | right]; reflexivity.
  - intros [rest [-> [Hstem [-> | Hrest]]]].
    + rewrite app_nil_r, split_without by exact Hstem. reflexivity.
    + destruct rest as [|c rest]; [discriminate|].
      injection Hrest as ->. rewrite split_app_sep.
      rewrite (split_without sep stem) by exact Hstem. reflexivity.
Qed.

Lemma scopeOf_single (change : Change) (stem : jsstring) :
  scopeOf [change] = Returned (Some stem)
  <-> baseNameStem (file change) stem.
Proof.
  unfold scopeOf, firstFile, baseNameStem, JS.pop, JS.index. simpl.
  split.
  - intros H.
    destruct (last (JS.split SLASH (file change))) as [seg|] eqn:Hseg;
      [|discriminate].
    exists seg. split.
    + apply split_last_iff. exact Hseg.
    + apply split_first_iff. congruence.
  - intros [seg [Hseg Hstem]].
    apply split_last_iff in Hseg. apply split_first_iff in Hstem.
    unfold finalSegment, beforeFirstPeriod in *.
    rewrite Hseg, Hstem. reflexivity.
Qed.

Lemma scopeOf_returns (changes : list Change) :
  exists scope, scopeOf changes = Returned (Some scope).
Proof.
  unfold scopeOf.
  destruct changes as [|c [|c' rest]].
  - simpl. eauto.
  - unfold firstFile, JS.pop, JS.index. simpl.
    pose proof (split_nonempty SLASH (file c)) as Hne.
    destruct (JS.split SLASH (file c)) as [|seg init _] using rev_ind;
      [done|].
    rewrite last_snoc.
    pose proof (split_nonempty PERIOD seg) as Hne'.
    destruct (JS.split PERIOD seg) as [|q qs]; [done|]. simpl. eauto.
  - assert ((JS.len (c :: c' :: rest) =? 1) = false) as ->.
    { apply Z.eqb_neq. unfold JS.len. simpl length. lia. }
    destruct (JS.len (c :: c' :: rest) >? 3); [eauto|].
    destruct (JS.len (JS.split COMMA (fileNames (c :: c' :: rest))) >? 1);
      eauto.
Qed.

Lemma split_with_sep (sep : N) (s : jsstring) :
  sep ∈ s -> (2 <= length (JS.split sep s))%nat.
Proof.
  intros Hin. apply list_elem_of_split in Hin as [a [b ->]].
  rewrite split_app_sep, length_app.
  pose proof (split_nonempty sep a). pose proof (split_nonempty sep b).
  destruct (JS.split sep a); [done|]. destruct (JS.split sep b); [done|].
  simpl. lia.
Qed.

Lemma remove_dups_NoDup (l : list jsstring) : NoDup l -> remove_dups l = l.
Proof.
  induction 1 as [|x l Hx Hl IH]; simpl; [reflexivity|].
  rewrite IH. destruct (decide_rel elem_of x l); [done | reflexivity].
Qed.

(** *** The result of [generateCommitMessage] *)

Lemma generateCommitMessage_returns (changes : list Change)
    (hint : option CommitType) :
  exists scope,
    scopeOf changes = Returned (Some scope)
    /\ generateCommitMessage changes hint
       = Returned
           {| message :=
                headerLine (suggestedType changes hint) (Some scope)
                  ++ [LF; LF]
                  ++ bulletLines changes (countAdded changes)
                       (countRemoved changes);
              type := suggestedType changes hint;
              stats := {| addedLines := countAdded changes;
                          removedLines := countRemoved changes;
                          filesChanged := JS.len changes |} |}.
Proof.
  destruct (scopeOf_returns changes) as [scope Hscope].
  exists scope. split; [exact Hscope|].
  unfold generateCommitMessage. rewrite Hscope. reflexivity.
Qed.

Lemma headerLine_spec (t : CommitType) (scope : jsstring) :
  headerLine t (Some scope) = headerBySpec t scope.
Proof.
  unfold headerLine, headerBySpec, scopeText.
  destruct scope as [|c scope]; simpl JS.truthy; cbv iota.
  - reflexivity.
  - simpl interpolate. rewrite <- !app_assoc. reflexivity.
Qed.

(** ** Line statistics *)

(** C1, as stated, fails: on a diff with the two header lines
    [--- a/a.ts] and [+++ b/a.ts], one removed and one added line, the
    function reports 2 added and 2 removed lines, while the lines beginning
    with a single marker number 1 and 1. *)
Lemma stats_count_header_lines :
  exists r,
    generateCommitMessage headerDiffExample None = Returned r
    /\ addedLines (stats r) = 2
    /\ countLines (beginsWithSingle PLUS) headerDiffExample = 1
    /\ removedLines (stats r) = 2
    /\ countLines (beginsWithSingle MINUS) headerDiffExample = 1.
Proof. eexists. repeat split; vm_compute; reflexivity. Qed.

(** C1, amended: for every change set the function returns, and its
    [addedLines] is the number of lines of all the diffs that begin with
    [+], header lines such as [+++ b/file] included; [removedLines] is the
    same count for [-]; [filesChanged] is the number of entries; all three
    are non-negative. *)
Theorem stats_count_marker_lines (changes : list Change)
    (hint : option CommitType) :
  exists r,
    generateCommitMessage changes hint = Returned r
    /\ addedLines (stats r) = countLines (beginsWith PLUS) changes
    /\ removedLines (stats r) = countLines (beginsWith MINUS) changes
    /\ filesChanged (stats r) = Z.of_nat (length changes)
    /\ 0 <= addedLines (stats r)
    /\ 0 <= removedLines (stats r)
    /\ 0 <= filesChanged (stats r).
Proof.
  destruct (generateCommitMessage_returns changes hint) as [scope [_ Hr]].
  eexists. split; [exact Hr|]. simpl.
  rewrite countAdded_lines, countRemoved_lines.
  repeat split; auto using countLines_nonneg. unfold JS.len. lia.
Qed.

(** ** Classification *)

Lemma suggestedType_reference (changes : list Change)
    (hint : option CommitType) :
  suggestedType changes hint = classifyReference changes hint.
Proof.
  unfold suggestedType, classifyReference, priorityChain.
  destruct hint as [category|]; [reflexivity|]. simpl.
  destruct (hasNewFeatures changes); [reflexivity|].
  destruct (hasBugFixes changes); [reflexivity|].
  destruct (hasDocChanges changes); [reflexivity|].
  destruct (hasTestChanges changes); reflexivity.
Qed.

(** C2: the category [generateCommitMessage] derives is the one of the
    reference classifier, for every change set and hint: a hint is
    returned unchanged, and otherwise the first matching predicate in the
    order feat, fix, docs, test decides, with chore when none matches.
    In particular the two files [a.test.ts] and [b.ts], where the diff of
    [b.ts] contains [fix] and the feat predicate does not hold, are
    classified [fix]. *)
Theorem classify_is_reference :
  (forall changes hint,
     exists r,
       generateCommitMessage changes hint = Returned r
       /\ type r = classifyReference changes hint)
  /\ (forall changes category,
        classifyReference changes (Some category) = category)
  /\ (forall d1 d2,
        containsText d2 (js "fix") ->
        hasNewFeatures (priorityScenario d1 d2) = false ->
        exists r,
          generateCommitMessage (priorityScenario d1 d2) None = Returned r
          /\ type r = Fix).
Proof.
  split; [|split].
  - intros changes hint.
    destruct (generateCommitMessage_returns changes hint) as [scope [_ Hr]].
    eexists. split; [exact Hr|]. apply suggestedType_reference.
  - reflexivity.
  - intros d1 d2 Hfix Hfeat.
    destruct (generateCommitMessage_returns (priorityScenario d1 d2) None)
      as [scope [_ Hr]].
    eexists. split; [exact Hr|]. cbn [type]. unfold suggestedType.
    rewrite Hfeat.
    assert (hasBugFixes (priorityScenario d1 d2) = true) as ->;
      [|reflexivity].
    destruct Hfix as [a [b ->]]. unfold hasBugFixes, priorityScenario.
    cbn [existsb diff].
    rewrite (includes_app a (js "fix") b), !orb_true_r. reflexivity.
Qed.

Lemma classify_is_reference_witness :
  exists r,
    generateCommitMessage (priorityScenario (js "+ it") (js "-fix me")) None
      = Returned r
    /\ type r = Fix.
Proof.
  apply (proj2 (proj2 classify_is_reference)).
  - exists (js "-"), (js " me"). reflexivity.
  - reflexivity.
Defined.

Lemma hasNewFeatures_spec (changes : list Change) :
  hasNewFeatures changes = true
  <-> exists change,
        change ∈ changes
        /\ containsText (diff change) (js "+ ")
        /\ (containsText (diff change) (js "function")
            \/ containsText (diff change) (js "class")
            \/ containsText (diff change) (js "export")).
Proof.
  unfold hasNewFeatures, containsText.
  rewrite existsb_exists. split.
  - intros [change [Hin H]]. exists change.
    rewrite andb_true_iff, !orb_true_iff, !includes_spec in H.
    rewrite list_elem_of_In. tauto.
  - intros [change [Hin H]]. exists change.
    rewrite andb_true_iff, !orb_true_iff, !includes_spec.
    rewrite list_elem_of_In in Hin. tauto.
Qed.

(** C3, as stated, fails in both directions: a diff whose only keyword is
    on a removed line, next to an added line, is classified [feat]; a diff
    whose added line declares a function right after the marker, with no
    space, is not. *)
Lemma feat_ignores_line_structure :
  (exists r,
     generateCommitMessage keywordOnRemovedLine None = Returned r
     /\ type r = Feat
     /\ featBySpec keywordOnRemovedLine = false)
  /\ (exists r,
        generateCommitMessage addedLineWithoutSpace None = Returned r
        /\ type r = Chore
        /\ featBySpec addedLineWithoutSpace = true).
Proof. split; eexists; repeat split; vm_compute; reflexivity. Qed.

(** C3, amended: with no hint the result is [feat] exactly when some diff
    contains the two characters plus and space somewhere and that same
    diff contains [function], [class] or [export] somewhere. *)
Theorem feat_iff_markers_in_diff (changes : list Change) :
  exists r,
    generateCommitMessage changes None = Returned r
    /\ (type r = Feat
        <-> exists change,
              change ∈ changes
              /\ containsText (diff change) (js "+ ")
              /\ (containsText (diff change) (js "function")
                  \/ containsText (diff change) (js "class")
                  \/ containsText (diff change) (js "export"))).
Proof.
  destruct (generateCommitMessage_returns changes None) as [scope [_ Hr]].
  eexists. split; [exact Hr|]. simpl.
  rewrite <- hasNewFeatures_spec.
  destruct (hasNewFeatures changes); [tauto|].
  destruct (hasBugFixes changes), (hasDocChanges changes),
    (hasTestChanges changes); split; discriminate.
Qed.

(** ** Scope and header *)

Lemma fileNames_has_comma (c c' : Change) (rest : list Change) :
  COMMA ∈ fileNames (c :: c' :: rest).
Proof.
  unfold fileNames. cbn [map]. rewrite join_cons. cbn [map concat].
  change (js ", ") with [COMMA; 32%N].
  rewrite !elem_of_app, elem_of_cons. auto.
Qed.

Lemma scopeOf_several (c c' : Change) (rest : list Change) :
  scopeOf (c :: c' :: rest)
  = Returned (Some (if JS.len (c :: c' :: rest) >? 3
                    then js "multiple" else js "files")).
Proof.
  unfold scopeOf.
  assert ((JS.len (c :: c' :: rest) =? 1) = false) as ->.
  { apply Z.eqb_neq. unfold JS.len. simpl length. lia. }
  destruct (JS.len (c :: c' :: rest) >? 3); [reflexivity|].
  pose proof (split_with_sep COMMA _ (fileNames_has_comma c c' rest)) as H.
  assert ((JS.len (JS.split COMMA (fileNames (c :: c' :: rest))) >? 1) = true)
    as ->; [|reflexivity].
  apply Z.gtb_lt. unfold JS.len. lia.
Qed.

(** C4: for a change set, whose paths are pairwise distinct, the scope is
    the base name before its first period when one file changed,
    [multiple] when more than three changed, [files] when more than one
    distinct name exists, and empty otherwise; the header carries the
    scope in parentheses, and no parenthetical segment when it is
    empty. *)
Theorem scope_derivation (changes : list Change) (hint : option CommitType) :
  NoDup (map file changes) ->
  exists scope r,
    scopeOf changes = Returned (Some scope)
    /\ generateCommitMessage changes hint = Returned r
    /\ scopeBySpec changes scope
    /\ message r
       = headerBySpec (type r) scope ++ [LF; LF]
           ++ bulletLines changes (addedLines (stats r))
                (removedLines (stats r)).
Proof.
  intros Hdistinct.
  destruct (generateCommitMessage_returns changes hint) as [scope [Hs Hr]].
  exists scope. eexists. split; [exact Hs|]. split; [exact Hr|]. split.
  - destruct changes as [|c [|c' rest]].
    + vm_compute in Hs. injection Hs as <-. reflexivity.
    + apply scopeOf_single. exact Hs.
    + rewrite scopeOf_several in Hs. injection Hs as <-.
      unfold scopeBySpec, distinctNames.
      rewrite remove_dups_NoDup by exact Hdistinct.
      destruct (JS.len (c :: c' :: rest) >? 3); [reflexivity|].
      assert ((JS.len (map file (c :: c' :: rest)) >? 1) = true) as ->;
        [|reflexivity].
      apply Z.gtb_lt. unfold JS.len. simpl length. lia.
  - cbn [message type stats addedLines removedLines].
    rewrite headerLine_spec. reflexivity.
Qed.

Lemma scope_derivation_witness :
  exists scope r,
    scopeOf twoFiles = Returned (Some scope)
    /\ generateCommitMessage twoFiles None = Returned r
    /\ scopeBySpec twoFiles scope
    /\ message r
       = headerBySpec (type r) scope ++ [LF; LF]
           ++ bulletLines twoFiles (addedLines (stats r))
                (removedLines (stats r)).
Proof.
  apply (scope_derivation twoFiles None).
  apply (bool_decide_unpack _). vm_compute. exact I.
Defined.

(** C9: when the only changed file has a final path segment that begins
    with a period, the scope is empty and the header is the category, a
    colon and the description, with no parenthetical segment. *)
Theorem dotfile_has_no_scope (change : Change) (hint : option CommitType)
    (seg : jsstring) :
  finalSegment (file change) seg ->
  head seg = Some PERIOD ->
  scopeOf [change] = Returned (Some [])
  /\ exists r,
       generateCommitMessage [change] hint = Returned r
       /\ message r
          = typeName (type r) ++ js ": " ++ description (type r) ++ [LF; LF]
              ++ bulletLines [change] (addedLines (stats r))
                   (removedLines (stats r)).
Proof.
  intros Hseg Hdot.
  assert (scopeOf [change] = Returned (Some [])) as Hscope.
  { apply scopeOf_single. exists seg. split; [exact Hseg|].
    destruct seg as [|c rest]; [discriminate|]. injection Hdot as ->.
    exists (PERIOD :: rest). split; [reflexivity|].
    split; [apply not_elem_of_nil | right; reflexivity]. }
  split; [exact Hscope|].
  unfold generateCommitMessage. rewrite Hscope.
  eexists. split; [reflexivity|].
  cbn [message type stats addedLines removedLines].
  rewrite headerLine_spec. cbn [headerBySpec].
  rewrite <- !app_assoc. reflexivity.
Qed.

Lemma dotfile_has_no_scope_witness :
  scopeOf [envFile] = Returned (Some [])
  /\ exists r,
       generateCommitMessage [envFile] None = Returned r
       /\ message r
          = typeName (type r) ++ js ": " ++ description (type r) ++ [LF; LF]
              ++ bulletLines [envFile] (addedLines (stats r))
                   (removedLines (stats r)).
Proof.
  apply (dotfile_has_no_scope envFile None (js ".env")).
  - exists (js "src/"). split; [reflexivity|]. split; [right; reflexivity|].
    apply (bool_decide_unpack _). vm_compute. exact I.
  - reflexivity.
Defined.

(** ** Totality and the empty change set *)

(** C8: [generateCommitMessage] returns for every change set and hint,
    never throwing; for the empty change set with no hint the message is
    the header [chore: update code] with no scope segment, a blank line,
    and the bullets for 0 files, 0 added and 0 removed lines and an empty
    file list, and the stats are all 0. *)
Theorem generateCommitMessage_total :
  (forall changes hint,
     exists r, generateCommitMessage changes hint = Returned r)
  /\ generateCommitMessage [] None
     = Returned
         {| message :=
              js "chore: update code" ++ [LF; LF]
                ++ js "- Modified 0 file" ++ [LF]
                ++ js "- Added 0 lines, removed 0 lines" ++ [LF]
                ++ js "- Files: ";
            type := Chore;
            stats := {| addedLines := 0;
                        removedLines := 0;
                        filesChanged := 0 |} |}.
Proof.
  split; [|reflexivity].
  intros changes hint.
  destruct (generateCommitMessage_returns changes hint) as [scope [_ Hr]].
  eauto.
Qed.

(** ** UTF-8 *)

Lemma list_pair_ind (P : jsstring -> Prop) :
  P [] ->
  (forall c, P [c]) ->
  (forall c d t, P t -> P (d :: t) -> P (c :: d :: t)) ->
  forall s, P s.
Proof.
  intros Hnil Hone Hstep s.
  assert (P s /\ forall c, P (c :: s)) as [H _]; [|exact H].
  induction s as [|d t [IHt IHc]]; [auto|].
  split; [apply IHc|]. intros c. apply Hstep; auto.
Qed.

Lemma splitsPair_cons (c d : N) (t b : jsstring) :
  splitsPair (c :: d :: t) b = splitsPair (d :: t) b.
Proof. unfold splitsPair. rewrite last_cons_cons. reflexivity. Qed.

Lemma encode_pair (c d : N) (t : jsstring) :
  UTF8.isHighSurrogate c = true ->
  UTF8.isLowSurrogate d = true ->
  UTF8.encode (c :: d :: t)
  = UTF8.encodeCodePoint (UTF8.codePointOfPair c d) ++ UTF8.encode t.
Proof. intros Hc Hd. simpl. rewrite Hc, Hd. reflexivity. Qed.

Lemma encode_lone_high (c d : N) (t : jsstring) :
  UTF8.isHighSurrogate c = true ->
  UTF8.isLowSurrogate d = false ->
  UTF8.encode (c :: d :: t) = UTF8.replacement ++ UTF8.encode (d :: t).
Proof. intros Hc Hd. simpl. rewrite Hc, Hd. reflexivity. Qed.

Lemma encode_other (c : N) (t : jsstring) :
  UTF8.isHighSurrogate c = false ->
  UTF8.encode (c :: t)
  = (if UTF8.isLowSurrogate c then UTF8.replacement
     else UTF8.encodeCodePoint c) ++ UTF8.encode t.
Proof.
  intros Hc. simpl. rewrite Hc.
  destruct (UTF8.isLowSurrogate c); reflexivity.
Qed.

(** Encoding distributes over a concatenation that does not cut a
    surrogate pair in two. *)
Lemma encode_app (a b : jsstring) :
  splitsPair a b = false ->
  UTF8.encode (a ++ b) = UTF8.encode a ++ UTF8.encode b.
Proof.
  induction a as [|c|c d t IHt IHd] using list_pair_ind; intros Hcut.
  - reflexivity.
  - unfold splitsPair in Hcut. simpl in Hcut.
    change ([c] ++ b) with (c :: b).
    destruct (UTF8.isHighSurrogate c) eqn:Hc.
    + destruct b as [|lo b]; [simpl; rewrite Hc; reflexivity|].
      simpl in Hcut.
      rewrite encode_lone_high by assumption. simpl. rewrite Hc.
      reflexivity.
    + rewrite !encode_other by assumption. simpl.
      rewrite app_nil_r. reflexivity.
  - rewrite splitsPair_cons in Hcut.
    change ((c :: d :: t) ++ b) with (c :: (d :: t) ++ b).
    destruct (UTF8.isHighSurrogate c) eqn:Hc.
    + change ((d :: t) ++ b) with (d :: t ++ b).
      destruct (UTF8.isLowSurrogate d) eqn:Hd.
      * rewrite !encode_pair by assumption.
        rewrite IHt, app_assoc; [reflexivity|].
        destruct t as [|e t]; [reflexivity|].
        rewrite <- Hcut. symmetry. apply splitsPair_cons.
      * rewrite !encode_lone_high by assumption.
        change (d :: t ++ b) with ((d :: t) ++ b).
        rewrite (IHd Hcut), app_assoc. reflexivity.
    + rewrite !encode_other by assumption.
      rewrite (IHd Hcut), app_assoc. reflexivity.
Qed.

Lemma encode_ascii (s : jsstring) :
  Forall (fun c => (c < 128)%N) s -> UTF8.encode s = s.
Proof.
  induction 1 as [|c t Hc Ht IH]; [reflexivity|]. simpl.
  assert (UTF8.isHighSurrogate c = false) as ->.
  { unfold UTF8.isHighSurrogate. apply andb_false_iff. left.
    apply N.leb_gt. lia. }
  assert (UTF8.isLowSurrogate c = false) as ->.
  { unfold UTF8.isLowSurrogate. apply andb_false_iff. left.
    apply N.leb_gt. lia. }
  unfold UTF8.encodeCodePoint.
  apply N.ltb_lt in Hc. rewrite Hc, IH. reflexivity.
Qed.

Lemma stripPrefix_app (p s : bytes) : stripPrefix p (p ++ s) = Some s.
Proof.
  induction p as [|a p IH]; simpl; [reflexivity|].
  rewrite N.eqb_refl. exact IH.
Qed.

(** ** [writeMarkdownReview] *)

Lemma markdownContent_heading (title : option jsstring) (content : jsstring) :
  (if JS.truthy title
   then js "# " ++ interpolate title ++ [LF; LF] ++ content
   else content)
  = titleHeading title ++ content.
Proof.
  destruct title as [[|c t]|]; simpl; [reflexivity| |reflexivity].
  rewrite <- !app_assoc. reflexivity.
Qed.

Lemma fullContent_fullText (timestamp : jsstring) (title : option jsstring)
    (content : jsstring) :
  js "---" ++ [LF]
    ++ js "generated: " ++ timestamp ++ [LF]
    ++ js "type: code-review" ++ [LF]
    ++ js "---" ++ [LF]
    ++ [LF]
    ++ (if JS.truthy title
        then js "# " ++ interpolate title ++ [LF; LF] ++ content
        else content) ++ [LF]
  = fullText timestamp title content.
Proof.
  rewrite markdownContent_heading. unfold fullText, metadataHeader.
  rewrite <- !app_assoc. reflexivity.
Qed.

(** The three ways a call can go. *)
Lemma writeMarkdownReview_cases (dirname : jsstring -> jsstring)
    (filePath content : jsstring) (title : option jsstring) (w : World) :
  let text := fullText (clock w) title content in
  (exists e,
     mkdirFault w (dirname filePath) = Some e
     /\ writeMarkdownReview dirname filePath content title w
        = (Returned (WriteFailed filePath (writeErrorText e)), w))
  \/ (exists e w',
        mkdirFault w (dirname filePath) = None
        /\ writeFault w filePath (UTF8.encode text) = Some e
        /\ writeMarkdownReview dirname filePath content title w
           = (Returned (WriteFailed filePath (writeErrorText e)), w'))
  \/ (exists w',
        mkdirFault w (dirname filePath) = None
        /\ writeFault w filePath (UTF8.encode text) = None
        /\ writeMarkdownReview dirname filePath content title w
           = (Returned
                (WriteSucceeded filePath (JS.len text)
                   (js "Successfully wrote "
                      ++ JS.numberToString (JS.len text)
                      ++ js " characters to " ++ filePath)),
              w')
        /\ readFile filePath w' = Some (UTF8.encode text)).
Proof.
  intros text.
  unfold writeMarkdownReview, tryCatch, bind, mkdir, toISOStringNow,
    writeFile, ret.
  destruct (mkdirFault w (dirname filePath)) as [e|] eqn:Hmk.
  - left. exists e. auto.
  - right. cbn [clock writeFault files].
    rewrite fullContent_fullText. fold text.
    destruct (writeFault w filePath (UTF8.encode text)) as [e|] eqn:Hwr.
    + left. eexists e, _. auto.
    + right. eexists. repeat split.
      unfold readFile. cbn [files]. apply lookup_insert_eq.
Qed.

Lemma splitsPair_before_LF (a t : jsstring) : splitsPair a (LF :: t) = false.
Proof.
  unfold splitsPair. destruct (last a); [|reflexivity]. simpl.
  apply andb_false_r.
Qed.

Lemma splitsPair_after_LF (a b : jsstring) : splitsPair (a ++ [LF]) b = false.
Proof.
  unfold splitsPair. rewrite last_snoc. destruct (head b); reflexivity.
Qed.

Lemma encode_snoc_LF (s : jsstring) :
  UTF8.encode (s ++ [LF]) = UTF8.encode s ++ [LF].
Proof. rewrite encode_app by apply splitsPair_before_LF. reflexivity. Qed.

Lemma heading_ends_with_LF (timestamp : jsstring) (title : option jsstring) :
  exists front, metadataHeader timestamp ++ titleHeading title = front ++ [LF].
Proof.
  unfold metadataHeader.
  destruct title as [[|c t]|]; cbn [titleHeading].
  - eexists. rewrite app_nil_r, !app_assoc. reflexivity.
  - eexists. change [LF; LF] with ([LF] ++ [LF]).
    rewrite !app_assoc. reflexivity.
  - eexists. rewrite app_nil_r, !app_assoc. reflexivity.
Qed.

(** The bytes of the full text: header and heading, content, newline. *)
Lemma encode_fullText (timestamp : jsstring) (title : option jsstring)
    (content : jsstring) :
  UTF8.encode (fullText timestamp title content)
  = UTF8.encode (metadataHeader timestamp ++ titleHeading title)
      ++ UTF8.encode content ++ [LF].
Proof.
  unfold fullText. rewrite app_assoc.
  destruct (heading_ends_with_LF timestamp title) as [front ->].
  rewrite encode_app by apply splitsPair_after_LF.
  rewrite (encode_snoc_LF content). reflexivity.
Qed.

(** C5, as stated, fails: written with no title in a world where nothing
    fails, the content [é] comes back, once header and heading are
    stripped, as its two bytes followed by a newline byte, not as the
    content alone; and the reported size, 65, is not the byte length of
    the written text, 66. *)
Lemma roundtrip_adds_newline_and_counts_units :
  exists size msg w' fileBytes,
    writeMarkdownReview reviewsDir reviewPath accentedContent None quietWorld
      = (Returned (WriteSucceeded reviewPath size msg), w')
    /\ readFile reviewPath w' = Some fileBytes
    /\ bodyOf (clock quietWorld) None fileBytes = Some [195; 169; 10]%N
    /\ UTF8.encode accentedContent = [195; 169]%N
    /\ size = 65
    /\ JS.len fileBytes = 66.
Proof.
  eexists _, _, _, _. split; [reflexivity|].
  split; [apply lookup_insert_eq|].
  repeat split; vm_compute; reflexivity.
Qed.

(** C5, amended: after a successful write the bytes read back, stripped
    of the encoded metadata header and title heading, are the UTF-8
    encoding of the content followed by one newline byte; the reported
    size is the length of the full written text in UTF-16 code units,
    which is its byte length when the text is ASCII. *)
Theorem roundtrip_body_and_size (dirname : jsstring -> jsstring)
    (filePath content : jsstring) (title : option jsstring) (w : World)
    (size : Z) (msg : jsstring) (w' : World) :
  writeMarkdownReview dirname filePath content title w
    = (Returned (WriteSucceeded filePath size msg), w') ->
  exists fileBytes,
    readFile filePath w' = Some fileBytes
    /\ bodyOf (clock w) title fileBytes = Some (UTF8.encode content ++ [LF])
    /\ size = JS.len (fullText (clock w) title content)
    /\ (Forall (fun c => (c < 128)%N) (fullText (clock w) title content) ->
        size = JS.len fileBytes).
Proof.
  intros Hrun.
  destruct (writeMarkdownReview_cases dirname filePath content title w)
    as [[e [_ H]] | [[e [w1 [_ [_ H]]]] | [w1 [_ [_ [H Hread]]]]]];
    rewrite H in Hrun; try discriminate.
  injection Hrun as <- _ <-.
  exists (UTF8.encode (fullText (clock w) title content)).
  split; [exact Hread|]. split; [|split; [reflexivity|]].
  - unfold bodyOf. rewrite encode_fullText. apply stripPrefix_app.
  - intros Hascii. rewrite encode_ascii by exact Hascii. reflexivity.
Qed.

Lemma roundtrip_body_and_size_witness :
  exists size msg w',
    writeMarkdownReview reviewsDir reviewPath (js "LGTM") (Some (js "Review"))
      quietWorld
      = (Returned (WriteSucceeded reviewPath size msg), w')
    /\ exists fileBytes,
         readFile reviewPath w' = Some fileBytes
         /\ bodyOf (clock quietWorld) (Some (js "Review")) fileBytes
            = Some (UTF8.encode (js "LGTM") ++ [LF])
         /\ size
            = JS.len (fullText (clock quietWorld) (Some (js "Review"))
                        (js "LGTM"))
         /\ (Forall (fun c => (c < 128)%N)
               (fullText (clock quietWorld) (Some (js "Review")) (js "LGTM")) ->
             size = JS.len fileBytes).
Proof.
  eexists _, _, _. split; [reflexivity|].
  eapply (roundtrip_body_and_size reviewsDir reviewPath (js "LGTM")
            (Some (js "Review")) quietWorld).
  reflexivity.
Defined.

(** C10: when nothing fails, the file is written with exactly the
    metadata header block, the optional title heading, the content and a
    terminating newline; its last byte is the newline whatever the content
    ends with; and the returned size is one more than the length of
    header, heading and content. *)
Theorem written_text_ends_with_newline (dirname : jsstring -> jsstring)
    (filePath content : jsstring) (title : option jsstring) (w : World) :
  mkdirFault w (dirname filePath) = None ->
  writeFault w filePath (UTF8.encode (fullText (clock w) title content))
    = None ->
  exists size msg w' fileBytes,
    writeMarkdownReview dirname filePath content title w
      = (Returned (WriteSucceeded filePath size msg), w')
    /\ readFile filePath w' = Some fileBytes
    /\ fileBytes
       = UTF8.encode
           (metadataHeader (clock w) ++ titleHeading title ++ content ++ [LF])
    /\ last fileBytes = Some LF
    /\ size
       = JS.len (metadataHeader (clock w) ++ titleHeading title ++ content)
           + 1.
Proof.
  intros Hmk Hwr.
  destruct (writeMarkdownReview_cases dirname filePath content title w)
    as [[e [H _]] | [[e [w1 [_ [H _]]]] | [w1 [_ [_ [H Hread]]]]]];
    [congruence | cbv zeta in H; congruence |].
  eexists _, _, w1, _. split; [exact H|].
  split; [exact Hread|]. split; [reflexivity|]. split.
  - unfold fullText. rewrite !app_assoc, encode_snoc_LF. apply last_snoc.
  - unfold fullText, JS.len. rewrite !app_assoc, length_app. simpl. lia.
Qed.

Lemma written_text_ends_with_newline_witness :
  exists size msg w' fileBytes,
    writeMarkdownReview reviewsDir reviewPath (js "no newline") None quietWorld
      = (Returned (WriteSucceeded reviewPath size msg), w')
    /\ readFile reviewPath w' = Some fileBytes
    /\ fileBytes
       = UTF8.encode
           (metadataHeader (clock quietWorld) ++ titleHeading None
              ++ js "no newline" ++ [LF])
    /\ last fileBytes = Some LF
    /\ size
       = JS.len (metadataHeader (clock quietWorld) ++ titleHeading None
                   ++ js "no newline")
           + 1.
Proof.
  apply (written_text_ends_with_newline reviewsDir reviewPath
           (js "no newline") None quietWorld); reflexivity.
Defined.

(** C6: [writeMarkdownReview] always returns and never throws.  When
    creating the directory or writing the file fails, with whatever value
    thrown, the result is the failure object with the file path and an
    error text, the message of the error or a fixed phrase for a value
    that is not an error; when neither fails, it is the success object
    with the file path and the size. *)
Theorem writeMarkdownReview_never_throws (dirname : jsstring -> jsstring)
    (filePath content : jsstring) (title : option jsstring) (w : World) :
  exists result w',
    writeMarkdownReview dirname filePath content title w
      = (Returned result, w')
    /\ match result with
       | WriteSucceeded path size _ =>
           path = filePath
           /\ size = JS.len (fullText (clock w) title content)
           /\ mkdirFault w (dirname filePath) = None
           /\ writeFault w filePath
                (UTF8.encode (fullText (clock w) title content)) = None
       | WriteFailed path error =>
           path = filePath
           /\ exists e,
                error = writeErrorText e
                /\ (mkdirFault w (dirname filePath) = Some e
                    \/ (mkdirFault w (dirname filePath) = None
                        /\ writeFault w filePath
                             (UTF8.encode (fullText (clock w) title content))
                           = Some e))
       end.
Proof.
  destruct (writeMarkdownReview_cases dirname filePath content title w)
    as [[e [Hmk H]] | [[e [w1 [Hmk [Hwr H]]]] | [w1 [Hmk [Hwr [H _]]]]]];
    cbv zeta in *; rewrite H; eexists _, _; (split; [reflexivity|]); cbv beta iota.
  - split; [reflexivity|]. exists e. auto.
  - split; [reflexivity|]. exists e. auto.
  - auto.
Qed.

(** ** [getGitHistory] *)

(** C7: [getGitHistory] always returns and never throws.  When opening
    the repository or reading its log fails, the result is an empty commit
    list with an error text; otherwise it is the commits of the log with
    no error field. *)
Theorem getGitHistory_never_throws (rootDir : jsstring) (maxCount : Z)
    (w : World) :
  exists result w',
    getGitHistory rootDir maxCount w = (Returned result, w')
    /\ ((exists e,
           (gitOpenFault w rootDir = Some e
            \/ (gitOpenFault w rootDir = None
                /\ gitLog w rootDir maxCount = Threw e))
           /\ History.commits result = []
           /\ History.error result = Some (historyErrorText e))
        \/ (exists entries,
              gitOpenFault w rootDir = None
              /\ gitLog w rootDir maxCount = Returned entries
              /\ History.commits result = map toCommit entries
              /\ History.error result = None)).
Proof.
  unfold getGitHistory, tryCatch, bind, simpleGit, logAll, ret.
  destruct (gitOpenFault w rootDir) as [e|] eqn:Hopen.
  - eexists _, _. split; [reflexivity|]. left. exists e. auto.
  - destruct (gitLog w rootDir maxCount) as [entries|e] eqn:Hlog.
    + eexists _, _. split; [reflexivity|]. right. exists entries. auto.
    + eexists _, _. split; [reflexivity|]. left. exists e. auto.
Qed.

(** ** [getFileChangesInDirectory] *)

Lemma arrayIncludes_excludeFiles (p : jsstring) :
  arrayIncludes excludeFiles p = false
  <-> p <> js "dist" /\ p <> js "bun.lock".
Proof.
  unfold arrayIncludes, excludeFiles. cbn [existsb].
  rewrite orb_false_r, orb_false_iff, !bool_decide_eq_false.
  split; intros [H1 H2]; split; congruence.
Qed.

Lemma keptPaths_excluded (entry : Summary.entry) (rest : list Summary.entry) :
  arrayIncludes excludeFiles (Summary.file entry) = true ->
  keptPaths (entry :: rest) = keptPaths rest.
Proof.
  intros Hin. unfold keptPaths. cbn [map]. rewrite filter_cons.
  destruct (decide _) as [Hkeep|]; [|reflexivity].
  apply arrayIncludes_excludeFiles in Hkeep. congruence.
Qed.

Lemma keptPaths_kept (entry : Summary.entry) (rest : list Summary.entry) :
  arrayIncludes excludeFiles (Summary.file entry) = false ->
  keptPaths (entry :: rest) = Summary.file entry :: keptPaths rest.
Proof.
  intros Hout. unfold keptPaths. cbn [map]. rewrite filter_cons.
  destruct (decide _) as [|Hskip]; [reflexivity|].
  apply arrayIncludes_excludeFiles in Hout. contradiction.
Qed.

Lemma diffedAs_paths
    (gitDiff : jsstring -> jsstring -> World -> Outcome jsstring)
    (git : jsstring) (w : World) (paths : list jsstring)
    (result : list Change) :
  Forall2 (diffedAs gitDiff git w) paths result -> map file result = paths.
Proof.
  induction 1 as [|q c qs cs [Hq _] _ IH]; [reflexivity|].
  cbn [map]. rewrite Hq, IH. reflexivity.
Qed.

Section DiffCollectorFacts.

Variable diffSummary : jsstring -> World -> Outcome (list Summary.entry).
Variable gitDiff : jsstring -> jsstring -> World -> Outcome jsstring.

(** The loop either diffs every kept path, in order, or stops at the
    first kept path whose diff fails. *)
Lemma collectDiffs_cases (git : jsstring) (files : list Summary.entry)
    (diffs : list Change) (w : World) :
  (exists more,
     collectDiffs gitDiff git files diffs w = (Returned (diffs ++ more), w)
     /\ Forall2 (diffedAs gitDiff git w) (keptPaths files) more)
  \/ (exists e before p after,
        collectDiffs gitDiff git files diffs w = (Threw e, w)
        /\ keptPaths files = before ++ p :: after
        /\ gitDiff git p w = Threw e
        /\ Forall (fun q => exists d, gitDiff git q w = Returned d) before).
Proof.
  revert diffs. induction files as [|entry rest IH]; intros diffs.
  - left. exists []. rewrite app_nil_r. split; [reflexivity | constructor].
  - cbn [collectDiffs].
    destruct (arrayIncludes excludeFiles (Summary.file entry)) eqn:Hex.
    + rewrite (keptPaths_excluded _ _ Hex). apply IH.
    + rewrite (keptPaths_kept _ _ Hex). unfold bind, readOnly.
      destruct (gitDiff git (Summary.file entry) w) as [d|e] eqn:Hd.
      * destruct (IH (diffs ++ [ {| file := Summary.file entry; diff := d |} ]))
          as [[more [Hrun Hall]] | [e [before [p [after [Hrun [Hk [Hp Hb]]]]]]]].
        -- left. exists ({| file := Summary.file entry; diff := d |} :: more).
           rewrite Hrun, <- app_assoc. split; [reflexivity|].
           constructor; [|exact Hall]. split; [reflexivity | exact Hd].
        -- right. exists e, (Summary.file entry :: before), p, after.
           rewrite Hrun, Hk. repeat split; [exact Hp|].
           constructor; [eauto | exact Hb].
      * right. exists e, [], (Summary.file entry), (keptPaths rest).
        repeat split; [exact Hd | constructor].
Qed.

(** The ways a call of the collector can go. *)
Lemma getFileChangesInDirectory_cases (rootDir : jsstring) (w : World) :
  exists out,
    getFileChangesInDirectory diffSummary gitDiff rootDir w = (out, w)
    /\ match out with
       | Returned result =>
           gitOpenFault w rootDir = None
           /\ exists files,
                diffSummary rootDir w = Returned files
                /\ Forall2 (diffedAs gitDiff rootDir w) (keptPaths files)
                     result
       | Threw e =>
           gitOpenFault w rootDir = Some e
           \/ (gitOpenFault w rootDir = None
               /\ diffSummary rootDir w = Threw e)
           \/ (gitOpenFault w rootDir = None
               /\ exists files before p after,
                    diffSummary rootDir w = Returned files
                    /\ keptPaths files = before ++ p :: after
                    /\ gitDiff rootDir p w = Threw e
                    /\ Forall
                         (fun q => exists d, gitDiff rootDir q w = Returned d)
                         before)
       end.
Proof.
  unfold getFileChangesInDirectory, bind, simpleGit, readOnly.
  destruct (gitOpenFault w rootDir) as [e|] eqn:Hopen.
  - eexists. split; [reflexivity|]. left. reflexivity.
  - destruct (diffSummary rootDir w) as [files|e] eqn:Hsum.
    + destruct (collectDiffs_cases rootDir files [] w)
        as [[more [Hrun Hall]] | [e [before [p [after [Hrun [Hk [Hp Hb]]]]]]]];
        rewrite Hrun; eexists; (split; [reflexivity|]).
      * split; [reflexivity|]. exists files. auto.
      * right. right. split; [reflexivity|].
        exists files, before, p, after. auto.
    + eexists. split; [reflexivity|]. right. left. auto.
Qed.

(** X1: the collector returns exactly when opening the repository, the
    summary and the diff of every kept path succeed, and then lists the
    kept paths in the order of the summary, each with its diff; otherwise
    it throws the error of the first operation that failed.  The world is
    left as it was. *)
Theorem getFileChangesInDirectory_outcome (rootDir : jsstring) (w : World) :
  exists out,
    getFileChangesInDirectory diffSummary gitDiff rootDir w = (out, w)
    /\ match out with
       | Returned result =>
           gitOpenFault w rootDir = None
           /\ exists files,
                diffSummary rootDir w = Returned files
                /\ Forall2 (diffedAs gitDiff rootDir w) (keptPaths files)
                     result
       | Threw e =>
           gitOpenFault w rootDir = Some e
           \/ (gitOpenFault w rootDir = None
               /\ diffSummary rootDir w = Threw e)
           \/ (gitOpenFault w rootDir = None
               /\ exists files before p after,
                    diffSummary rootDir w = Returned files
                    /\ keptPaths files = before ++ p :: after
                    /\ gitDiff rootDir p w = Threw e
                    /\ Forall
                         (fun q => exists d, gitDiff rootDir q w = Returned d)
                         before)
       end.
Proof. apply getFileChangesInDirectory_cases. Qed.

(** X2: a returned change set never holds a path equal to [dist] or
    [bun.lock], and holds every other path of the summary: the exclusion
    is by exact match of the whole path, so a file below [dist/] is
    kept. *)
Theorem exclusion_is_exact_match (rootDir : jsstring) (w w' : World)
    (result : list Change) (files : list Summary.entry) :
  getFileChangesInDirectory diffSummary gitDiff rootDir w
    = (Returned result, w') ->
  diffSummary rootDir w = Returned files ->
  forall p,
    p ∈ map file result
    <-> p ∈ map Summary.file files /\ p <> js "dist" /\ p <> js "bun.lock".
Proof.
  intros Hrun Hsum p.
  destruct (getFileChangesInDirectory_cases rootDir w) as [out [Hout Hcase]].
  rewrite Hout in Hrun. injection Hrun as -> _.
  destruct Hcase as [_ [files' [Hsum' Hall]]].
  rewrite Hsum in Hsum'. injection Hsum' as <-.
  rewrite (diffedAs_paths _ _ _ _ _ Hall).
  unfold keptPaths. rewrite list_elem_of_filter. tauto.
Qed.

(** X3: when the paths of the summary are pairwise distinct, so are the
    paths of the returned change set. *)
Theorem collected_paths_distinct (rootDir : jsstring) (w w' : World)
    (result : list Change) (files : list Summary.entry) :
  getFileChangesInDirectory diffSummary gitDiff rootDir w
    = (Returned result, w') ->
  diffSummary rootDir w = Returned files ->
  NoDup (map Summary.file files) ->
  NoDup (map file result).
Proof.
  intros Hrun Hsum Hdistinct.
  destruct (getFileChangesInDirectory_cases rootDir w) as [out [Hout Hcase]].
  rewrite Hout in Hrun. injection Hrun as -> _.
  destruct Hcase as [_ [files' [Hsum' Hall]]].
  rewrite Hsum in Hsum'. injection Hsum' as <-.
  rewrite (diffedAs_paths _ _ _ _ _ Hall).
  unfold keptPaths. apply NoDup_filter. exact Hdistinct.
Qed.

End DiffCollectorFacts.

Lemma exclusion_is_exact_match_witness :
  exists result w',
    getFileChangesInDirectory sampleSummary sampleDiff (js ".") quietWorld
      = (Returned result, w')
    /\ (js "dist/index.js" ∈ map file result
        <-> js "dist/index.js"
              ∈ map Summary.file
                  [ summaryEntry (js "dist");
                    summaryEntry (js "src/a.ts");
                    summaryEntry (js "bun.lock");
                    summaryEntry (js "dist/index.js") ]
            /\ js "dist/index.js" <> js "dist"
            /\ js "dist/index.js" <> js "bun.lock").
Proof.
  eexists _, _. split; [reflexivity|].
  eapply (exclusion_is_exact_match sampleSummary sampleDiff (js ".")
            quietWorld); reflexivity.
Defined.

Lemma collected_paths_distinct_witness :
  exists result w',
    getFileChangesInDirectory sampleSummary sampleDiff (js ".") quietWorld
      = (Returned result, w')
    /\ NoDup (map file result).
Proof.
  eexists _, _. split; [reflexivity|].
  eapply (collected_paths_distinct sampleSummary sampleDiff (js ".")
            quietWorld).
  - reflexivity.
  - reflexivity.
  - apply (bool_decide_unpack _). vm_compute. exact I.
Defined.

Lemma collectDiffs_agree
    (gitDiff gitDiff' : jsstring -> jsstring -> World -> Outcome jsstring)
    (git : jsstring) (w : World) (files : list Summary.entry)
    (diffs : list Change) :
  (forall p,
     p <> js "dist" /\ p <> js "bun.lock" ->
     gitDiff git p w = gitDiff' git p w) ->
  collectDiffs gitDiff git files diffs w
  = collectDiffs gitDiff' git files diffs w.
Proof.
  intros Hagree. revert diffs.
  induction files as [|entry rest IH]; intros diffs; [reflexivity|].
  cbn [collectDiffs].
  destruct (arrayIncludes excludeFiles (Summary.file entry)) eqn:Hex;
    [apply IH|].
  unfold bind, readOnly.
  rewrite <- (Hagree _ (proj1 (arrayIncludes_excludeFiles _) Hex)).
  destruct (gitDiff git (Summary.file entry) w); [apply IH | reflexivity].
Qed.

(** X4: the diff of an excluded path is never asked for: two clients
    that give the same diff for every path other than [dist] and
    [bun.lock] give the same outcome, whatever each does, or fails to do,
    for those two. *)
Theorem excluded_paths_never_diffed
    (diffSummary : jsstring -> World -> Outcome (list Summary.entry))
    (gitDiff gitDiff' : jsstring -> jsstring -> World -> Outcome jsstring)
    (rootDir : jsstring) (w : World) :
  (forall p,
     p <> js "dist" /\ p <> js "bun.lock" ->
     gitDiff rootDir p w = gitDiff' rootDir p w) ->
  getFileChangesInDirectory diffSummary gitDiff rootDir w
  = getFileChangesInDirectory diffSummary gitDiff' rootDir w.
Proof.
  intros Hagree. unfold getFileChangesInDirectory, bind, simpleGit, readOnly.
  destruct (gitOpenFault w rootDir); [reflexivity|].
  destruct (diffSummary rootDir w); [|reflexivity].
  apply collectDiffs_agree. exact Hagree.
Qed.

Lemma excluded_paths_never_diffed_witness :
  getFileChangesInDirectory sampleSummary sampleDiff (js ".") quietWorld
  = getFileChangesInDirectory sampleSummary lockFailingDiff (js ".")
      quietWorld.
Proof.
  apply excluded_paths_never_diffed.
  intros p [_ Hlock]. unfold sampleDiff, lockFailingDiff.
  rewrite bool_decide_eq_false_2 by exact Hlock. reflexivity.
Defined.

(** X5: a collected change set always yields a commit message: the call
    returns, [filesChanged] is the number of summary paths other than
    [dist] and [bun.lock], and the file list of the message is those
    paths joined by a comma and a space. *)
Theorem collected_changes_message
    (diffSummary : jsstring -> World -> Outcome (list Summary.entry))
    (gitDiff : jsstring -> jsstring -> World -> Outcome jsstring)
    (rootDir : jsstring) (w w' : World) (result : list Change)
    (files : list Summary.entry) (hint : option CommitType) :
  getFileChangesInDirectory diffSummary gitDiff rootDir w
    = (Returned result, w') ->
  diffSummary rootDir w = Returned files ->
  exists r scope,
    generateCommitMessage result hint = Returned r
    /\ scopeOf result = Returned (Some scope)
    /\ filesChanged (stats r) = JS.len (keptPaths files)
    /\ fileNames result = JS.join (js ", ") (keptPaths files)
    /\ message r
       = headerBySpec (type r) scope
           ++ [LF; LF]
           ++ js "- Modified " ++ JS.numberToString (JS.len (keptPaths files))
           ++ js " file"
           ++ (if JS.len (keptPaths files) >? 1 then js "s" else [])
           ++ [LF]
           ++ js "- Added " ++ JS.numberToString (addedLines (stats r))
           ++ js " lines, removed "
           ++ JS.numberToString (removedLines (stats r))
           ++ js " lines" ++ [LF]
           ++ js "- Files: " ++ JS.join (js ", ") (keptPaths files).
Proof.
  intros Hrun Hsum.
  destruct (getFileChangesInDirectory_cases diffSummary gitDiff rootDir w)
    as [out [Hout Hcase]].
  rewrite Hout in Hrun. injection Hrun as -> _.
  destruct Hcase as [_ [files' [Hsum' Hall]]].
  rewrite Hsum in Hsum'. injection Hsum' as <-.
  pose proof (diffedAs_paths _ _ _ _ _ Hall) as Hpaths.
  destruct (generateCommitMessage_returns result hint) as [scope [Hs Hr]].
  eexists _, scope. split; [exact Hr|]. split; [exact Hs|].
  cbn [message type stats addedLines removedLines filesChanged].
  rewrite headerLine_spec. unfold bulletLines, fileNames. rewrite Hpaths.
  assert (JS.len result = JS.len (keptPaths files)) as ->.
  { unfold JS.len. rewrite <- Hpaths, length_map. reflexivity. }
  split; [reflexivity|]. split; reflexivity.
Qed.

Lemma collected_changes_message_witness :
  exists result w' r,
    getFileChangesInDirectory sampleSummary sampleDiff (js ".") quietWorld
      = (Returned result, w')
    /\ generateCommitMessage result None = Returned r
    /\ filesChanged (stats r) = 2
    /\ fileNames result = js "src/a.ts, dist/index.js".
Proof.
  eexists _, _.
  destruct (collected_changes_message sampleSummary sampleDiff (js ".")
              quietWorld quietWorld _ _ None eq_refl eq_refl)
    as [r [scope [Hr [_ [Hn [Hf _]]]]]].
  exists r. split; [reflexivity|]. split; [exact Hr|].
  split; [exact Hn | exact Hf].
Defined.

(** X6: the two readers treat the same failure differently: when the
    repository cannot be opened, [getGitHistory] returns an empty commit
    list with the error text, while [getFileChangesInDirectory] throws
    the error. *)
Theorem open_failure_recovered_or_thrown
    (diffSummary : jsstring -> World -> Outcome (list Summary.entry))
    (gitDiff : jsstring -> jsstring -> World -> Outcome jsstring)
    (rootDir : jsstring) (maxCount : Z) (w : World) (e : Thrown) :
  gitOpenFault w rootDir = Some e ->
  getGitHistory rootDir maxCount w
    = (Returned {| History.commits := [];
                   History.error := Some (historyErrorText e) |}, w)
  /\ getFileChangesInDirectory diffSummary gitDiff rootDir w = (Threw e, w).
Proof.
  intros Hopen.
  unfold getGitHistory, getFileChangesInDirectory, tryCatch, bind, simpleGit,
    ret.
  rewrite Hopen. split; reflexivity.
Qed.

Lemma open_failure_recovered_or_thrown_witness :
  getGitHistory (js ".") 10 noRepositoryWorld
    = (Returned {| History.commits := [];
                   History.error := Some (js "not a git repository") |},
       noRepositoryWorld)
  /\ getFileChangesInDirectory sampleSummary sampleDiff (js ".")
       noRepositoryWorld
     = (Threw (ErrorObject (js "not a git repository")), noRepositoryWorld).
Proof.
  apply (open_failure_recovered_or_thrown sampleSummary sampleDiff (js ".") 10
           noRepositoryWorld (ErrorObject (js "not a git repository"))).
  reflexivity.
Defined.

(** ** More on [generateCommitMessage] *)

Lemma existsb_orb (changes : list Change) (p q : Change -> bool) :
  existsb (fun c => p c || q c) changes
  = existsb p changes || existsb q changes.
Proof.
  induction changes as [|c rest IH]; [reflexivity|]. cbn [existsb].
  rewrite IH. destruct (p c), (q c), (existsb p rest); reflexivity.
Qed.

Lemma existsb_diff_includes (changes : list Change) (text : jsstring) :
  existsb (fun c => JS.includes (diff c) text) changes = true
  <-> someDiffContains changes text.
Proof.
  unfold someDiffContains, containsText. rewrite existsb_exists.
  split; intros [c [Hin H]]; exists c;
    [rewrite list_elem_of_In | rewrite <- list_elem_of_In];
    (split; [exact Hin|]); apply includes_spec; exact H.
Qed.

Lemma existsb_file_includes (changes : list Change) (text : jsstring) :
  existsb (fun c => JS.includes (file c) text) changes = true
  <-> somePathContains changes text.
Proof.
  unfold somePathContains, containsText. rewrite existsb_exists.
  split; intros [c [Hin H]]; exists c;
    [rewrite list_elem_of_In | rewrite <- list_elem_of_In];
    (split; [exact Hin|]); apply includes_spec; exact H.
Qed.

Lemma hasBugFixes_spec (changes : list Change) :
  hasBugFixes changes = true <-> bugFixSigns changes.
Proof.
  unfold hasBugFixes, bugFixSigns.
  rewrite !existsb_orb, !orb_true_iff, !existsb_diff_includes. tauto.
Qed.

Lemma hasTestChanges_spec (changes : list Change) :
  hasTestChanges changes = true <-> testSigns changes.
Proof.
  unfold hasTestChanges, testSigns.
  rewrite !existsb_orb, !orb_true_iff, !existsb_file_includes. tauto.
Qed.

Lemma hasDocChanges_spec (changes : list Change) :
  hasDocChanges changes = true <-> docSigns changes.
Proof.
  unfold hasDocChanges, docSigns.
  rewrite !existsb_orb, !orb_true_iff, !existsb_file_includes,
    !existsb_diff_includes. tauto.
Qed.

(** Turn a decided predicate into the fact it stands for. *)
Ltac settle_sign H :=
  match type of H with
  | true = true <-> ?P =>
      let HP := fresh "Hsign" in
      assert P as HP by (apply H; reflexivity); clear H
  | false = true <-> ?P =>
      let HP := fresh "Hsign" in
      assert (~ P) as HP by (intros HP; apply H in HP; discriminate); clear H
  end.

(** X7: with no hint the category is decided by the four kinds of signs
    in the order feat, fix, docs, test: [fix] exactly when there are no
    feat signs and some diff contains [fix], [bug] or [error]; [docs]
    exactly when there are neither and some path contains [README] or
    [.md] or some diff contains [@param] or [@returns]; [test] exactly
    when there are none of these and some path contains [test] or [spec];
    [chore] exactly when there are no signs at all.  [style] and
    [refactor] are never derived. *)
Theorem heuristic_categories (changes : list Change) :
  exists r,
    generateCommitMessage changes None = Returned r
    /\ (type r = Fix <-> ~ featSigns changes /\ bugFixSigns changes)
    /\ (type r = Docs
        <-> ~ featSigns changes /\ ~ bugFixSigns changes /\ docSigns changes)
    /\ (type r = Test
        <-> ~ featSigns changes /\ ~ bugFixSigns changes
            /\ ~ docSigns changes /\ testSigns changes)
    /\ (type r = Chore
        <-> ~ featSigns changes /\ ~ bugFixSigns changes
            /\ ~ docSigns changes /\ ~ testSigns changes)
    /\ type r <> Style
    /\ type r <> Refactor.
Proof.
  destruct (generateCommitMessage_returns changes None) as [scope [_ Hr]].
  eexists. split; [exact Hr|]. cbn [type]. unfold suggestedType.
  pose proof (hasNewFeatures_spec changes) as Hfeat.
  pose proof (hasBugFixes_spec changes) as Hfix.
  pose proof (hasDocChanges_spec changes) as Hdoc.
  pose proof (hasTestChanges_spec changes) as Htest.
  fold (featSigns changes) in Hfeat.
  destruct (hasNewFeatures changes), (hasBugFixes changes),
    (hasDocChanges changes), (hasTestChanges changes);
    settle_sign Hfeat; settle_sign Hfix; settle_sign Hdoc; settle_sign Htest;
    repeat split; try discriminate; tauto.
Qed.

(** X8: with no hint, the category of two change sets put together is
    the one of higher priority among the categories of the two, in the
    order feat, fix, docs, test, chore: adding files never lowers the
    category. *)
Theorem category_of_concatenation (a b : list Change) :
  exists ra rb r,
    generateCommitMessage a None = Returned ra
    /\ generateCommitMessage b None = Returned rb
    /\ generateCommitMessage (a ++ b) None = Returned r
    /\ type r = higher (type ra) (type rb).
Proof.
  destruct (generateCommitMessage_returns a None) as [sa [_ Ha]].
  destruct (generateCommitMessage_returns b None) as [sb [_ Hb]].
  destruct (generateCommitMessage_returns (a ++ b) None) as [s [_ Hab]].
  eexists _, _, _. split; [exact Ha|]. split; [exact Hb|].
  split; [exact Hab|]. cbn [type]. unfold suggestedType.
  unfold hasNewFeatures, hasBugFixes, hasDocChanges, hasTestChanges.
  rewrite !existsb_app.
  repeat match goal with
         | |- context [existsb ?p ?l] => destruct (existsb p l)
         end; reflexivity.
Qed.

Lemma existsb_Permutation (p : Change -> bool) (a b : list Change) :
  a ≡ₚ b -> existsb p a = existsb p b.
Proof.
  induction 1 as [|c a b _ IH|c d a|a b c _ IHab _ IHbc]; cbn [existsb].
  - reflexivity.
  - rewrite IH. reflexivity.
  - destruct (p c), (p d); reflexivity.
  - congruence.
Qed.

Lemma countLines_Permutation (p : jsstring -> bool) (a b : list Change) :
  a ≡ₚ b -> countLines p a = countLines p b.
Proof.
  unfold countLines.
  induction 1 as [|c a b _ IH|c d a|a b c _ IHab _ IHbc]; cbn [fold_right].
  - reflexivity.
  - rewrite IH. reflexivity.
  - lia.
  - congruence.
Qed.

(** X9: the order of the files does not matter to the category or to the
    statistics: two change sets that are permutations of each other get
    the same type and the same stats, with or without a hint. *)
Theorem order_independent (a b : list Change) (hint : option CommitType) :
  a ≡ₚ b ->
  exists ra rb,
    generateCommitMessage a hint = Returned ra
    /\ generateCommitMessage b hint = Returned rb
    /\ type ra = type rb
    /\ stats ra = stats rb.
Proof.
  intros Hperm.
  destruct (generateCommitMessage_returns a hint) as [sa [_ Ha]].
  destruct (generateCommitMessage_returns b hint) as [sb [_ Hb]].
  eexists _, _. split; [exact Ha|]. split; [exact Hb|].
  cbn [type stats]. split.
  - unfold suggestedType, hasNewFeatures, hasBugFixes, hasDocChanges,
      hasTestChanges.
    destruct hint; [reflexivity|].
    rewrite !(existsb_Permutation _ a b Hperm). reflexivity.
  - rewrite !countAdded_lines, !countRemoved_lines.
    rewrite (countLines_Permutation _ a b Hperm).
    rewrite (countLines_Permutation _ a b Hperm).
    unfold JS.len. rewrite (Permutation_length Hperm). reflexivity.
Qed.

Lemma order_independent_witness :
  exists ra rb,
    generateCommitMessage (fst docsThenFix ++ snd docsThenFix) None
      = Returned ra
    /\ generateCommitMessage (snd docsThenFix ++ fst docsThenFix) None
       = Returned rb
    /\ type ra = type rb
    /\ stats ra = stats rb.
Proof.
  apply order_independent. apply Permutation_app_comm.
Defined.

Lemma countLines_app (p : jsstring -> bool) (a b : list Change) :
  countLines p (a ++ b) = countLines p a + countLines p b.
Proof.
  unfold countLines. induction a as [|c a IH]; cbn [fold_right app].
  - lia.
  - rewrite IH. lia.
Qed.

(** X10: the statistics add up: the added lines, removed lines and file
    count of two change sets put together are the sums of those of the
    two. *)
Theorem stats_of_concatenation (a b : list Change)
    (hint : option CommitType) :
  exists ra rb r,
    generateCommitMessage a hint = Returned ra
    /\ generateCommitMessage b hint = Returned rb
    /\ generateCommitMessage (a ++ b) hint = Returned r
    /\ addedLines (stats r) = addedLines (stats ra) + addedLines (stats rb)
    /\ removedLines (stats r)
       = removedLines (stats ra) + removedLines (stats rb)
    /\ filesChanged (stats r)
       = filesChanged (stats ra) + filesChanged (stats rb).
Proof.
  destruct (generateCommitMessage_returns a hint) as [sa [_ Ha]].
  destruct (generateCommitMessage_returns b hint) as [sb [_ Hb]].
  destruct (generateCommitMessage_returns (a ++ b) hint) as [s [_ Hab]].
  eexists _, _, _. split; [exact Ha|]. split; [exact Hb|].
  split; [exact Hab|]. cbn [stats addedLines removedLines filesChanged].
  rewrite !countAdded_lines, !countRemoved_lines, !countLines_app.
  unfold JS.len. rewrite length_app. repeat split; lia.
Qed.

Lemma marker_lines_disjoint (lines : list jsstring) :
  (length (List.filter (beginsWith PLUS) lines)
   + length (List.filter (beginsWith MINUS) lines)
   <= length lines)%nat.
Proof.
  induction lines as [|line rest IH]; cbn [List.filter]; [reflexivity|].
  assert (beginsWith PLUS line && beginsWith MINUS line = false) as Hdisj.
  { destruct line as [|x t]; [reflexivity|]. cbn [beginsWith].
    destruct (x =? PLUS)%N eqn:E; [|reflexivity].
    apply N.eqb_eq in E as ->. reflexivity. }
  destruct (beginsWith PLUS line), (beginsWith MINUS line);
    try discriminate; cbn [length]; lia.
Qed.

(** X11: the added and the removed lines together never exceed the
    number of lines of the diffs: no line is counted as both. *)
Theorem stats_within_line_count (changes : list Change)
    (hint : option CommitType) :
  exists r,
    generateCommitMessage changes hint = Returned r
    /\ addedLines (stats r) + removedLines (stats r) <= lineCount changes.
Proof.
  destruct (generateCommitMessage_returns changes hint) as [scope [_ Hr]].
  eexists. split; [exact Hr|]. cbn [stats addedLines removedLines].
  rewrite countAdded_lines, countRemoved_lines.
  unfold countLines, lineCount. clear Hr.
  induction changes as [|c rest IH]; cbn [fold_right]; [lia|].
  pose proof (marker_lines_disjoint (linesOf (diff c))) as Hc.
  unfold JS.len in *. lia.
Qed.

(** X12: with two or more entries the scope depends on their number
    alone: [files] for two or three, [multiple] for more, whether or not
    the paths are distinct, and the header carries it in parentheses. *)
Theorem scope_by_count (changes : list Change) (hint : option CommitType) :
  (2 <= length changes)%nat ->
  exists r,
    generateCommitMessage changes hint = Returned r
    /\ scopeOf changes
       = Returned (Some (if JS.len changes >? 3
                         then js "multiple" else js "files"))
    /\ message r
       = typeName (type r) ++ js "("
           ++ (if JS.len changes >? 3 then js "multiple" else js "files")
           ++ js ")" ++ js ": " ++ description (type r) ++ [LF; LF]
           ++ bulletLines changes (addedLines (stats r))
                (removedLines (stats r)).
Proof.
  intros Hlen.
  destruct changes as [|c [|c' rest]]; [simpl in Hlen; lia ..|].
  pose proof (scopeOf_several c c' rest) as Hscope.
  unfold generateCommitMessage. rewrite Hscope.
  eexists. split; [reflexivity|]. split; [reflexivity|].
  cbn [message type stats addedLines removedLines].
  rewrite headerLine_spec.
  destruct (JS.len (c :: c' :: rest) >? 3); cbn [headerBySpec js];
    rewrite <- ?app_assoc; reflexivity.
Qed.

Lemma scope_by_count_witness :
  exists r,
    generateCommitMessage samePathTwice None = Returned r
    /\ scopeOf samePathTwice
       = Returned (Some (if JS.len samePathTwice >? 3
                         then js "multiple" else js "files"))
    /\ message r
       = typeName (type r) ++ js "("
           ++ (if JS.len samePathTwice >? 3
               then js "multiple" else js "files")
           ++ js ")" ++ js ": " ++ description (type r) ++ [LF; LF]
           ++ bulletLines samePathTwice (addedLines (stats r))
                (removedLines (stats r)).
Proof. apply (scope_by_count samePathTwice None). simpl. lia. Defined.

(** X13: for one changed file the scope contains no slash and no period
    and is a part of the path: the path is some directory part, the scope
    and a rest. *)
Theorem single_file_scope_clean (change : Change) :
  exists scope,
    scopeOf [change] = Returned (Some scope)
    /\ (SLASH ∉ scope)
    /\ (PERIOD ∉ scope)
    /\ exists dirPart rest, file change = dirPart ++ scope ++ rest.
Proof.
  destruct (scopeOf_returns [change]) as [scope Hs].
  exists scope. split; [exact Hs|].
  apply scopeOf_single in Hs as [seg [[dirPart [Hpath [_ Hslash]]]
                                        [rest [Hseg [Hperiod _]]]]].
  subst seg. apply not_elem_of_app in Hslash as [Hslash _].
  split; [exact Hslash|]. split; [exact Hperiod|].
  exists dirPart, rest. exact Hpath.
Qed.

(** ** More on [writeMarkdownReview] *)



(** X15: an empty title is no title: the call with the title [""] does
    exactly what the call without a title does, and no heading is
    written. *)
Theorem empty_title_is_no_title (dirname : jsstring -> jsstring)
    (filePath content : jsstring) (w : World) :
  writeMarkdownReview dirname filePath content (Some []) w
  = writeMarkdownReview dirname filePath content None w
  /\ fullText (clock w) (Some []) content
     = metadataHeader (clock w) ++ content ++ [LF].
Proof. split; reflexivity. Qed.

(** X16: on success the size exceeds the length of the content by the
    length of the timestamp plus 40, and by the length of the title plus
    4 more when there is a non-empty title. *)
Theorem size_overhead (dirname : jsstring -> jsstring)
    (filePath content : jsstring) (title : option jsstring) (w w' : World)
    (size : Z) (msg : jsstring) :
  writeMarkdownReview dirname filePath content title w
    = (Returned (WriteSucceeded filePath size msg), w') ->
  size = JS.len content + JS.len (clock w) + 40 + headingLength title.
Proof.
  intros Hrun.
  destruct (writeMarkdownReview_cases dirname filePath content title w)
    as [[e [_ H]] | [[e [w1 [_ [_ H]]]] | [w1 [_ [_ [H _]]]]]];
    rewrite H in Hrun; try discriminate.
  injection Hrun as <- _ _.
  unfold fullText, metadataHeader, headingLength, JS.len.
  destruct title as [[|c t]|]; cbn [titleHeading];
    rewrite ?length_app; cbn [length js]; rewrite ?length_app;
    cbn [length]; lia.
Qed.

Lemma size_overhead_witness :
  exists size msg w',
    writeMarkdownReview reviewsDir reviewPath (js "LGTM") (Some (js "Review"))
      quietWorld
      = (Returned (WriteSucceeded reviewPath size msg), w')
    /\ size = 4 + 24 + 40 + (6 + 4).
Proof.
  eexists _, _, _. split; [reflexivity|].
  apply (size_overhead reviewsDir reviewPath (js "LGTM") (Some (js "Review"))
           quietWorld _ _ _ eq_refl).
Defined.

(** X17: on success the directory of the file has been created before
    the write, and every directory that existed still does. *)
Theorem directory_created_on_success (dirname : jsstring -> jsstring)
    (filePath content : jsstring) (title : option jsstring) (w w' : World)
    (size : Z) (msg : jsstring) :
  writeMarkdownReview dirname filePath content title w
    = (Returned (WriteSucceeded filePath size msg), w') ->
  dirname filePath ∈ directories w' /\ directories w ⊆ directories w'.
Proof.
  unfold writeMarkdownReview, tryCatch, bind, mkdir, toISOStringNow,
    writeFile, ret.
  destruct (mkdirFault w (dirname filePath)) as [e|]; [discriminate|].
  cbn [clock writeFault files directories].
  match goal with
  | |- context [writeFault w filePath ?data] =>
      destruct (writeFault w filePath data)
  end; [discriminate|].
  intros H. injection H as _ _ <-. cbn [directories]. set_solver.
Qed.

Lemma directory_created_on_success_witness :
  exists size msg w',
    writeMarkdownReview reviewsDir reviewPath (js "LGTM") None quietWorld
      = (Returned (WriteSucceeded reviewPath size msg), w')
    /\ reviewsDir reviewPath ∈ directories w'
    /\ directories quietWorld ⊆ directories w'.
Proof.
  eexists _, _, _. split; [reflexivity|].
  apply (directory_created_on_success reviewsDir reviewPath (js "LGTM") None
           quietWorld _ _ _ eq_refl).
Defined.
